(** * Lumen chat server: a shallow embedding of [src/server.js]

    The server keeps four registries in memory and reacts to socket.io
    events.  Every handler of [io.on('connection', ...)] becomes a function
    from the registries (a [State]) to the new registries and the list of
    effects it performs on the socket.io library (emits, channel joins and
    leaves), in the order of the source.

    Conventions of the embedding:
    - a JS [Map] iterated by the code ([users], [rooms]) is an association
      list in insertion order ([JsMap]); a [Map] only read and written by
      key ([socketToUser], [userSessions], the two rate tables) is a [gmap];
    - a JS [Set] ([room.members]) is a list in insertion order ([JsSet]);
    - [Date.now()], [new Date()], [uuidv4()] and the bcrypt salt are inputs
      of a handler ([Env]); the bcrypt functions are parameters ([Bcrypt]);
    - a handler runs to completion: the awaits on bcrypt do not interleave
      with other handlers;
    - [console.log] is dropped, except where evaluating its argument throws;
    - payload fields have the type the handler uses them at; values that are
      only passed through ([message], [offer], [chunk], ...) are [JsVal]s;
    - user:update, which touches no room and no rate table, is left out. *)

From Stdlib Require Import ZArith String Ascii Bool Lia.
From stdpp Require Import base option list gmap strings.

Local Open Scope string_scope.

(** ** JavaScript values that leave the server *)

#[local] Set Warnings "-register-all".

Inductive JsVal : Type :=
| JUndefined
| JNull
| JBool (b : bool)
| JNum (n : Z)
| JStr (s : string)
| JDate (t : Z)
| JArr (xs : list JsVal)
| JObj (fields : list (string * JsVal)).

Definition js_opt_str (o : option string) : JsVal :=
  match o with Some s => JStr s | None => JUndefined end.

(** The property names of an object literal, in source order. *)
Definition js_keys (v : JsVal) : list string :=
  match v with JObj fs => fst <$> fs | _ => [] end.

Fixpoint assoc_get {V : Type} (k : string) (m : list (string * V)) : option V :=
  match m with
  | [] => None
  | (k', v) :: m' => if String.eqb k k' then Some v else assoc_get k m'
  end.

Definition js_field (k : string) (v : JsVal) : option JsVal :=
  match v with JObj fs => assoc_get k fs | _ => None end.

Definition js_array (v : JsVal) : list JsVal :=
  match v with JArr xs => xs | _ => [] end.

(** JS truthiness of a value that is a string or [undefined]. *)
Definition truthy (o : option string) : bool :=
  match o with
  | Some s => negb (String.eqb s "")
  | None => false
  end.

(** ** [Map] with insertion order *)

Module JsMap.
Section JsMap.
Context {V : Type}.

Definition get (k : string) (m : list (string * V)) : option V := assoc_get k m.

Definition has (k : string) (m : list (string * V)) : bool :=
  match get k m with Some _ => true | None => false end.

(** [m.set(k, v)]: an existing key keeps its position. *)
Fixpoint set (k : string) (v : V) (m : list (string * V)) : list (string * V) :=
  match m with
  | [] => [(k, v)]
  | (k', v') :: m' =>
      if String.eqb k k' then (k', v) :: m' else (k', v') :: set k v m'
  end.

Fixpoint delete (k : string) (m : list (string * V)) : list (string * V) :=
  match m with
  | [] => []
  | (k', v') :: m' =>
      if String.eqb k k' then delete k m' else (k', v') :: delete k m'
  end.

Definition size (m : list (string * V)) : Z := Z.of_nat (length m).

Definition values (m : list (string * V)) : list V := snd <$> m.
End JsMap.
End JsMap.

(** ** [Set] of strings with insertion order *)

Module JsSet.
Fixpoint has (x : string) (s : list string) : bool :=
  match s with
  | [] => false
  | y :: s' => if String.eqb x y then true else has x s'
  end.

Definition add (x : string) (s : list string) : list string :=
  if has x s then s else s ++ [x].

Fixpoint delete (x : string) (s : list string) : list string :=
  match s with
  | [] => []
  | y :: s' => if String.eqb x y then delete x s' else y :: delete x s'
  end.

Definition size (s : list string) : Z := Z.of_nat (length s).

(** [s.values().next().value] *)
Definition first (s : list string) : option string := head s.

(** [s.has(userId)] where [userId] may be [undefined]: the sets of the
    program hold strings only. *)
Definition has_opt (o : option string) (s : list string) : bool :=
  match o with Some x => has x s | None => false end.
End JsSet.

(** ** Records of the registries (server.js:25-39) *)

Record User := mkUser {
  u_id : string;
  u_name : string;
  u_avatarUrl : option string;
  u_socketId : string;
  u_joinedAt : Z;
  u_lastSeen : Z
}.

Record Room := mkRoom {
  r_id : string;
  r_name : string;
  r_isPrivate : bool;
  r_pinHash : option string;
  r_leadUserId : string;
  r_members : list string;
  r_maxMembers : Z;
  r_createdAt : Z
}.

Record Session := mkSession {
  s_userId : string;
  s_connectedAt : Z;
  s_lastActivity : Z
}.

Record RateCount := mkRateCount {
  rc_count : Z;
  rc_resetTime : Z
}.

Record State := mkState {
  users : list (string * User);
  rooms : list (string * Room);
  socketToUser : gmap string string;
  userSessions : gmap string Session;
  userMessageCounts : gmap string RateCount;
  userFileCounts : gmap string RateCount
}.

Definition initial : State :=
  {| users := []; rooms := []; socketToUser := ∅; userSessions := ∅;
     userMessageCounts := ∅; userFileCounts := ∅ |}.

Definition set_users (f : list (string * User) → list (string * User)) (st : State) : State :=
  {| users := f (users st); rooms := rooms st; socketToUser := socketToUser st;
     userSessions := userSessions st; userMessageCounts := userMessageCounts st;
     userFileCounts := userFileCounts st |}.

Definition set_rooms (f : list (string * Room) → list (string * Room)) (st : State) : State :=
  {| users := users st; rooms := f (rooms st); socketToUser := socketToUser st;
     userSessions := userSessions st; userMessageCounts := userMessageCounts st;
     userFileCounts := userFileCounts st |}.

Definition with_members (ms : list string) (r : Room) : Room :=
  {| r_id := r_id r; r_name := r_name r; r_isPrivate := r_isPrivate r;
     r_pinHash := r_pinHash r; r_leadUserId := r_leadUserId r; r_members := ms;
     r_maxMembers := r_maxMembers r; r_createdAt := r_createdAt r |}.

Definition with_lead (l : string) (r : Room) : Room :=
  {| r_id := r_id r; r_name := r_name r; r_isPrivate := r_isPrivate r;
     r_pinHash := r_pinHash r; r_leadUserId := l; r_members := r_members r;
     r_maxMembers := r_maxMembers r; r_createdAt := r_createdAt r |}.

Definition with_pinHash (h : option string) (r : Room) : Room :=
  {| r_id := r_id r; r_name := r_name r; r_isPrivate := r_isPrivate r;
     r_pinHash := h; r_leadUserId := r_leadUserId r; r_members := r_members r;
     r_maxMembers := r_maxMembers r; r_createdAt := r_createdAt r |}.

Definition with_lastSeen (t : Z) (u : User) : User :=
  {| u_id := u_id u; u_name := u_name u; u_avatarUrl := u_avatarUrl u;
     u_socketId := u_socketId u; u_joinedAt := u_joinedAt u; u_lastSeen := t |}.

(** ** Configuration (server.js:31-35) *)

Definition MAX_ROOM_MEMBERS : Z := 50.
Definition MAX_ROOMS_PER_USER : Z := 10.
Definition MAX_TOTAL_USERS : Z := 200.
Definition MESSAGE_RATE_LIMIT : Z := 10.
Definition FILE_RATE_LIMIT : Z := 5.
Definition MAX_FILE_SIZE : Z := 50 * 1024 * 1024.   (* server.js:449 *)

(** ** Effects on the socket.io library *)

Inductive Dest : Type :=
| ToSocket (sid : string)                   (* socket.emit *)
| ToChannel (ch : string)                   (* io.to(ch).emit *)
| ToChannelExcept (ch : string) (sid : string)  (* socket.to(ch).emit *)
| ToAll.                                    (* io.emit *)

Inductive Effect : Type :=
| Emit (d : Dest) (event : string) (payload : JsVal)
| SocketJoin (sid : string) (ch : string)       (* socket.join(ch) *)
| SocketLeave (sid : string) (ch : string)      (* socket.leave(ch) *)
| SocketsLeave (target : string) (ch : string). (* io.to(target).socketsLeave(ch) *)

Definition emit_error (sid : string) (msg : string) : Effect :=
  Emit (ToSocket sid) "error" (JObj [("message", JStr msg)]).

Definition is_error (e : Effect) : bool :=
  match e with
  | Emit _ ev _ => String.eqb ev "error"
  | _ => false
  end.

(** An emit of event [ev] other than the error event. *)
Definition is_emit_of (ev : string) (e : Effect) : bool :=
  match e with
  | Emit _ ev' _ => String.eqb ev ev'
  | _ => false
  end.

(** ** Inputs a handler takes from its environment *)

Record Env := mkEnv {
  now : Z;          (* Date.now() / new Date() *)
  uuid : string;    (* uuidv4() *)
  salt : string     (* the salt bcrypt.hash draws *)
}.

Record Bcrypt := mkBcrypt {
  bcrypt_hash : string → string → string;    (* salt, pin *)
  bcrypt_compare : string → string → bool    (* pin, digest *)
}.

(** ** Helper functions (server.js:641-712) *)

Definition quote_char : ascii := ascii_of_nat 34.
Definition apos_char : ascii := ascii_of_nat 39.

Fixpoint escapeHtml (text : string) : string :=
  match text with
  | EmptyString => EmptyString
  | String c rest =>
      (if Ascii.eqb c "&" then "&amp;"
       else if Ascii.eqb c "<" then "&lt;"
       else if Ascii.eqb c ">" then "&gt;"
       else if Ascii.eqb c quote_char then "&quot;"
       else if Ascii.eqb c apos_char then "&#039;"
       else String c EmptyString) +:+ escapeHtml rest
  end.

Inductive EventClass : Type := MessageClass | FileClass.

Definition limit_of (type : EventClass) : Z :=
  match type with MessageClass => MESSAGE_RATE_LIMIT | FileClass => FILE_RATE_LIMIT end.

Definition counts_of (type : EventClass) (st : State) : gmap string RateCount :=
  match type with MessageClass => userMessageCounts st | FileClass => userFileCounts st end.

Definition set_counts (type : EventClass) (c : gmap string RateCount) (st : State) : State :=
  match type with
  | MessageClass =>
      {| users := users st; rooms := rooms st; socketToUser := socketToUser st;
         userSessions := userSessions st; userMessageCounts := c;
         userFileCounts := userFileCounts st |}
  | FileClass =>
      {| users := users st; rooms := rooms st; socketToUser := socketToUser st;
         userSessions := userSessions st; userMessageCounts := userMessageCounts st;
         userFileCounts := c |}
  end.

(** [checkRateLimit(userId, type)] on one table (server.js:653-675). *)
Definition check_counts (limit : Z) (t : Z) (userId : string)
    (counts : gmap string RateCount) : bool * gmap string RateCount :=
  match counts !! userId with
  | None => (true, <[userId := mkRateCount 1 (t + 60000)]> counts)
  | Some userCount =>
      if (rc_resetTime userCount <? t)%Z then
        (true, <[userId := mkRateCount 1 (t + 60000)]> counts)
      else if (limit <=? rc_count userCount)%Z then
        (false, counts)
      else
        (true, <[userId := mkRateCount (rc_count userCount + 1) (rc_resetTime userCount)]> counts)
  end.

Definition checkRateLimit (t : Z) (userId : string) (type : EventClass)
    (st : State) : bool * State :=
  let '(ok, c) := check_counts (limit_of type) t userId (counts_of type st) in
  (ok, set_counts type c st).

Definition serializeMember (user : User) : JsVal :=
  JObj [("id", JStr (u_id user));
        ("name", JStr (u_name user));
        ("avatarUrl", js_opt_str (u_avatarUrl user));
        ("lastSeen", JDate (u_lastSeen user))].

(** [serializeRoom(room)] (server.js:677-696); reads the user registry. *)
Definition serializeRoom (us : list (string * User)) (room : Room) : JsVal :=
  JObj [("id", JStr (r_id room));
        ("name", JStr (r_name room));
        ("isPrivate", JBool (r_isPrivate room));
        ("leadUserId", JStr (r_leadUserId room));
        ("maxMembers", JNum (r_maxMembers room));
        ("memberCount", JNum (JsSet.size (r_members room)));
        ("createdAt", JDate (r_createdAt room));
        ("members",
          JArr (omap (λ userId, serializeMember <$> JsMap.get userId us)
                     (r_members room)))].

Definition user_to_js (user : User) : JsVal :=
  JObj [("id", JStr (u_id user));
        ("name", JStr (u_name user));
        ("avatarUrl", js_opt_str (u_avatarUrl user));
        ("socketId", JStr (u_socketId user));
        ("joinedAt", JDate (u_joinedAt user));
        ("lastSeen", JDate (u_lastSeen user))].

Definition broadcastUserList (st : State) : Effect :=
  Emit ToAll "user:list"
    (JArr ((λ user,
              JObj [("id", JStr (u_id user));
                    ("name", JStr (u_name user));
                    ("avatarUrl", js_opt_str (u_avatarUrl user));
                    ("joinedAt", JDate (u_joinedAt user));
                    ("lastSeen", JDate (u_lastSeen user))])
           <$> JsMap.values (users st))).

Definition broadcastRoomList (st : State) : Effect :=
  Emit ToAll "room:list" (JArr (serializeRoom (users st) <$> JsMap.values (rooms st))).

(** [room.members.forEach(...)] of the message and file handlers: one emit
    per member that resolves in the registry and sits on another socket. *)
Definition fan_out (st : State) (sid : string) (room : Room)
    (event : string) (payload : JsVal) : list Effect :=
  omap (λ memberId,
          match JsMap.get memberId (users st) with
          | Some member =>
              if String.eqb (u_socketId member) sid then None
              else Some (Emit (ToChannel (u_socketId member)) event payload)
          | None => None
          end)
       (r_members room).

(** The membership guard shared by the room handlers:
    [!room || !room.members.has(userId)]. *)
Definition member_room (st : State) (userId : option string) (roomId : string)
    : option (string * Room) :=
  match JsMap.get roomId (rooms st), userId with
  | Some room, Some u => if JsSet.has u (r_members room) then Some (u, room) else None
  | _, _ => None
  end.

(** The identity guard of create, join, joinByPin and list:request:
    [!userId || !users.has(userId)]. *)
Definition registered (st : State) (userId : option string) : option string :=
  match userId with
  | Some u => if truthy (Some u) && JsMap.has u (users st) then Some u else None
  | None => None
  end.

(** [const user = users.get(userId); if (user) user.lastSeen = new Date()] *)
Definition touch (t : Z) (userId : string) (st : State) : State :=
  match JsMap.get userId (users st) with
  | Some user => set_users (JsMap.set userId (with_lastSeen t user)) st
  | None => st
  end.

(** What the leave and disconnect handlers do to a room object that holds
    [userId]: delete it from the members, then either flag the room for
    deletion (members empty) or reassign the lead if the lead left. *)
Definition remove_member (userId : string) (room : Room) : Room * bool :=
  let room1 := with_members (JsSet.delete userId (r_members room)) room in
  if (JsSet.size (r_members room1) =? 0)%Z then (room1, true)
  else if String.eqb (r_leadUserId room1) userId then
    (with_lead (default (r_leadUserId room1) (JsSet.first (r_members room1))) room1, false)
  else (room1, false).

(** ** The handlers (server.js:50-639) *)

Section Handlers.
Variable B : Bcrypt.
Variable env : Env.
Variable sid : string.     (* socket.id *)

Definition room_payload (st : State) (roomId : string) (room : Room) : JsVal :=
  JObj [("roomId", JStr roomId); ("room", serializeRoom (users st) room)].

(** user:join (server.js:54-103) *)
Definition user_join (name : string) (userId avatarUrl : option string)
    (st : State) : State * list Effect :=
  if (MAX_TOTAL_USERS <=? JsMap.size (users st))%Z then
    (st, [emit_error sid "Server is at capacity. Please try again later."])
  else
    let finalUserId :=
      match registered st userId with Some u => u | None => uuid env end in
    let user :=
      {| u_id := finalUserId; u_name := escapeHtml name;
         u_avatarUrl := if truthy avatarUrl then avatarUrl else None;
         u_socketId := sid; u_joinedAt := now env; u_lastSeen := now env |} in
    let st' :=
      {| users := JsMap.set finalUserId user (users st);
         rooms := rooms st;
         socketToUser := <[sid := finalUserId]> (socketToUser st);
         userSessions := <[sid := mkSession finalUserId (now env) (now env)]> (userSessions st);
         userMessageCounts := userMessageCounts st;
         userFileCounts := userFileCounts st |} in
    (st',
     [Emit (ToSocket sid) "user:joined"
        (JObj [("userId", JStr finalUserId);
               ("user", user_to_js user);
               ("serverStats",
                 JObj [("totalUsers", JNum (JsMap.size (users st')));
                       ("totalRooms", JNum (JsMap.size (rooms st')));
                       ("maxUsers", JNum MAX_TOTAL_USERS)])]);
      broadcastUserList st']).

(** [Math.min(maxMembers || MAX_ROOM_MEMBERS, MAX_ROOM_MEMBERS)] (server.js:155);
    [None] is an absent field, [Some 0] is falsy as well. *)
Definition create_maxMembers (maxMembers : option Z) : Z :=
  Z.min (match maxMembers with
         | Some n => if (n =? 0)%Z then MAX_ROOM_MEMBERS else n
         | None => MAX_ROOM_MEMBERS
         end)
        MAX_ROOM_MEMBERS.

(** room:create (server.js:126-170) *)
Definition room_create (name : string) (isPrivate : bool) (pin : option string)
    (maxMembers : option Z) (st : State) : State * list Effect :=
  match registered st (socketToUser st !! sid) with
  | None => (st, [emit_error sid "User not found"])
  | Some userId =>
      let userRooms :=
        filter (λ room, r_leadUserId room = userId) (JsMap.values (rooms st)) in
      if (MAX_ROOMS_PER_USER <=? Z.of_nat (length userRooms))%Z then
        (st, [emit_error sid "You can only create up to 10 rooms"])
      else
        let roomId := uuid env in
        let pinHash :=
          match pin with
          | Some p => if isPrivate && truthy pin
                      then Some (bcrypt_hash B (salt env) p) else None
          | None => None
          end in
        let room :=
          {| r_id := roomId; r_name := escapeHtml name; r_isPrivate := isPrivate;
             r_pinHash := pinHash; r_leadUserId := userId; r_members := [userId];
             r_maxMembers := create_maxMembers maxMembers;
             r_createdAt := now env |} in
        let st' := set_rooms (JsMap.set roomId room) st in
        (st',
         [SocketJoin sid roomId;
          Emit (ToSocket sid) "room:created" (room_payload st' roomId room);
          broadcastRoomList st'])
  end.

(** [room.isPrivate && room.pinHash] guarding
    [!pin || !(await bcrypt.compare(pin, room.pinHash))] (server.js:200-201) *)
Definition pin_rejected (room : Room) (pin : option string) : bool :=
  match r_pinHash room with
  | Some h =>
      r_isPrivate room && truthy (Some h) &&
      match pin with
      | Some p => negb (truthy pin) || negb (bcrypt_compare B p h)
      | None => true
      end
  | None => false
  end.

(** room:join (server.js:173-225) *)
Definition room_join (roomId : string) (pin : option string)
    (st : State) : State * list Effect :=
  match registered st (socketToUser st !! sid) with
  | None => (st, [emit_error sid "User not found"])
  | Some userId =>
      match JsMap.get roomId (rooms st) with
      | None => (st, [emit_error sid "Room not found"])
      | Some room =>
          if (r_maxMembers room <=? JsSet.size (r_members room))%Z then
            (st, [emit_error sid "Room is full"])
          else if JsSet.has userId (r_members room) then
            (st, [emit_error sid "You are already in this room"])
          else if pin_rejected room pin then
            (st, [emit_error sid "Invalid PIN"])
          else
            let room' := with_members (JsSet.add userId (r_members room)) room in
            let st' := touch (now env) userId (set_rooms (JsMap.set roomId room') st) in
            (st',
             [SocketJoin sid roomId;
              Emit (ToSocket sid) "room:joined" (room_payload st' roomId room');
              Emit (ToChannelExcept roomId sid) "room:update" (room_payload st' roomId room')])
      end
  end.

(** The scan of room:joinByPin (server.js:241-250): the first entry, in
    insertion order, that is private and whose digest matches. *)
Fixpoint find_by_pin (pin : string) (rs : list (string * Room))
    : option (string * Room) :=
  match rs with
  | [] => None
  | (k, room) :: rs' =>
      match r_pinHash room with
      | Some h =>
          if r_isPrivate room && truthy (Some h) && bcrypt_compare B pin h
          then Some (k, room) else find_by_pin pin rs'
      | None => find_by_pin pin rs'
      end
  end.

(** room:joinByPin (server.js:228-266) *)
Definition room_joinByPin (pin : option string) (st : State) : State * list Effect :=
  match registered st (socketToUser st !! sid) with
  | None => (st, [emit_error sid "User not found"])
  | Some userId =>
      match pin with
      | Some p =>
          if negb (truthy pin) then (st, [emit_error sid "PIN is required"])
          else
            match find_by_pin p (rooms st) with
            | None => (st, [emit_error sid "Invalid PIN or room not found"])
            | Some (k, targetRoom) =>
                let room' :=
                  with_members (JsSet.add userId (r_members targetRoom)) targetRoom in
                let st' := set_rooms (JsMap.set k room') st in
                (st',
                 [SocketJoin sid (r_id targetRoom);
                  Emit (ToSocket sid) "room:joined"
                    (room_payload st' (r_id targetRoom) room');
                  Emit (ToChannelExcept (r_id targetRoom) sid) "room:update"
                    (room_payload st' (r_id targetRoom) room');
                  broadcastRoomList st'])
            end
      | None => (st, [emit_error sid "PIN is required"])
      end
  end.

(** [room.leadUserId !== userId] with [userId] possibly [undefined]. *)
Definition is_lead (room : Room) (userId : option string) : bool :=
  match userId with
  | Some u => String.eqb (r_leadUserId room) u
  | None => false
  end.

(** room:kick (server.js:269-293) *)
Definition room_kick (roomId targetUserId : string) (st : State)
    : State * list Effect :=
  let userId := socketToUser st !! sid in
  match JsMap.get roomId (rooms st) with
  | None => (st, [emit_error sid "Unauthorized"])
  | Some room =>
      if negb (is_lead room userId) then (st, [emit_error sid "Unauthorized"])
      else if JsSet.has targetUserId (r_members room) then
        let room' := with_members (JsSet.delete targetUserId (r_members room)) room in
        let st' := set_rooms (JsMap.set roomId room') st in
        (st',
         (match JsMap.get targetUserId (users st) with
          | Some targetUser =>
              [SocketsLeave (u_socketId targetUser) roomId;
               Emit (ToChannel (u_socketId targetUser)) "room:kicked"
                 (JObj [("roomId", JStr roomId)])]
          | None => []
          end ++
          [Emit (ToChannelExcept roomId sid) "room:update"
             (room_payload st' roomId room')])%list)
      else (st, [])
  end.

(** room:list:request (server.js:297-311) *)
Definition room_list_request (st : State) : State * list Effect :=
  match registered st (socketToUser st !! sid) with
  | None => (st, [emit_error sid "User not found"])
  | Some _ =>
      (st, [Emit (ToSocket sid) "room:list"
              (JArr (serializeRoom (users st) <$> JsMap.values (rooms st)))])
  end.

(** room:leave (server.js:314-337) *)
Definition room_leave (roomId : string) (st : State) : State * list Effect :=
  match member_room st (socketToUser st !! sid) roomId with
  | Some (userId, room) =>
      let '(room', emptied) := remove_member userId room in
      let st' :=
        set_rooms (if emptied then JsMap.delete roomId else JsMap.set roomId room') st in
      (st',
       [SocketLeave sid roomId;
        Emit (ToSocket sid) "room:left" (JObj [("roomId", JStr roomId)]);
        Emit (ToChannelExcept roomId sid) "room:update" (room_payload st' roomId room');
        broadcastRoomList st'])
  | None => (st, [])
  end.

(** room:message (server.js:340-373) *)
Definition room_message (roomId : string) (message : JsVal) (st : State)
    : State * list Effect :=
  match member_room st (socketToUser st !! sid) roomId with
  | None => (st, [emit_error sid "Not authorized to send messages in this room"])
  | Some (userId, room) =>
      let '(allowed, st1) := checkRateLimit (now env) userId MessageClass st in
      if negb allowed then
        (st1, [emit_error sid "Message rate limit exceeded. Please slow down."])
      else
        let st2 := touch (now env) userId st1 in
        (st2, fan_out st2 sid room "room:message"
                (JObj [("roomId", JStr roomId); ("message", message)]))
  end.

(** room:typing (server.js:376-385) *)
Definition room_typing (roomId : string) (isTyping : JsVal) (st : State)
    : State * list Effect :=
  match member_room st (socketToUser st !! sid) roomId with
  | None => (st, [])
  | Some (userId, _) =>
      (st, [Emit (ToChannelExcept roomId sid) "room:typing"
              (JObj [("roomId", JStr roomId); ("userId", JStr userId);
                     ("isTyping", isTyping)])])
  end.

(** room:message-edit (server.js:388-400) *)
Definition room_message_edit (roomId : string) (messageId newText : JsVal)
    (st : State) : State * list Effect :=
  match member_room st (socketToUser st !! sid) roomId with
  | None => (st, [emit_error sid "Not authorized to edit in this room"])
  | Some (userId, _) =>
      (st, [Emit (ToChannelExcept roomId sid) "room:message-edit"
              (JObj [("roomId", JStr roomId); ("messageId", messageId);
                     ("newText", newText); ("userId", JStr userId)])])
  end.

(** room:message-delete (server.js:403-415) *)
Definition room_message_delete (roomId : string) (messageId : JsVal)
    (st : State) : State * list Effect :=
  match member_room st (socketToUser st !! sid) roomId with
  | None => (st, [emit_error sid "Not authorized to delete in this room"])
  | Some (userId, _) =>
      (st, [Emit (ToChannelExcept roomId sid) "room:message-delete"
              (JObj [("roomId", JStr roomId); ("messageId", messageId);
                     ("userId", JStr userId)])])
  end.

(** room:reaction (server.js:418-430) *)
Definition room_reaction (roomId : string) (messageId emoji action : JsVal)
    (st : State) : State * list Effect :=
  match member_room st (socketToUser st !! sid) roomId with
  | None => (st, [emit_error sid "Not authorized to react in this room"])
  | Some (userId, _) =>
      (st, [Emit (ToChannel roomId) "room:reaction"
              (JObj [("roomId", JStr roomId); ("messageId", messageId);
                     ("emoji", emoji); ("action", action);
                     ("userId", JStr userId)])])
  end.

(** room:file:start (server.js:433-483).  [user.name] is read while the
    first forward is built and again by the final [console.log]: when the
    sender does not resolve in [users] that read throws, and the [catch]
    emits the generic error before anything is forwarded. *)
Definition room_file_start (roomId : string) (fileId : JsVal) (fileName : string)
    (fileSize totalChunks : Z) (st : State) : State * list Effect :=
  match member_room st (socketToUser st !! sid) roomId with
  | None => (st, [emit_error sid "Not authorized to send files in this room"])
  | Some (userId, room) =>
      let '(allowed, st1) := checkRateLimit (now env) userId FileClass st in
      if negb allowed then
        (st1, [emit_error sid
                 "File transfer rate limit exceeded. Please wait before sending another file."])
      else if (MAX_FILE_SIZE <? fileSize)%Z then
        (st1, [emit_error sid "File size too large. Maximum 50MB allowed."])
      else if (1000 <? totalChunks)%Z then
        (st1, [emit_error sid "Too many chunks. Please try a smaller file."])
      else
        match JsMap.get userId (users st1) with
        | None => (st1, [emit_error sid "Failed to start file transfer"])
        | Some user =>
            (st1, fan_out st1 sid room "room:file:start"
                    (JObj [("roomId", JStr roomId); ("fileId", fileId);
                           ("fileName", JStr (escapeHtml fileName));
                           ("fileSize", JNum fileSize);
                           ("totalChunks", JNum totalChunks);
                           ("fromUserId", JStr userId);
                           ("fromUserName", JStr (u_name user))]))
        end
  end.

(** room:file:chunk (server.js:485-510) *)
Definition room_file_chunk (roomId : string) (fileId chunkIndex chunk : JsVal)
    (st : State) : State * list Effect :=
  match member_room st (socketToUser st !! sid) roomId with
  | None => (st, [emit_error sid "Not authorized to send files in this room"])
  | Some (userId, room) =>
      (st, fan_out st sid room "room:file:chunk"
             (JObj [("roomId", JStr roomId); ("fileId", fileId);
                    ("chunkIndex", chunkIndex); ("chunk", chunk);
                    ("fromUserId", JStr userId)]))
  end.

(** room:file:end (server.js:512-535) *)
Definition room_file_end (roomId : string) (fileId : JsVal)
    (st : State) : State * list Effect :=
  match member_room st (socketToUser st !! sid) roomId with
  | None => (st, [emit_error sid "Not authorized to send files in this room"])
  | Some (userId, room) =>
      (st, fan_out st sid room "room:file:end"
             (JObj [("roomId", JStr roomId); ("fileId", fileId);
                    ("fromUserId", JStr userId)]))
  end.

(** The payload the three signaling handlers forward. *)
Definition signal_payload (userId : option string) (field : string)
    (body : JsVal) (roomId : option string) : JsVal :=
  JObj [("fromUserId", js_opt_str userId); (field, body);
        ("roomId", js_opt_str roomId)].

(** The room check of webrtc:offer (server.js:549-555):
    [!room || !room.members.has(userId) || !room.members.has(targetUserId)]
    under [if (roomId)]. *)
Definition same_room (st : State) (userId : option string) (targetUserId : string)
    (roomId : option string) : bool :=
  match roomId with
  | Some rid =>
      if truthy roomId then
        match JsMap.get rid (rooms st) with
        | Some room =>
            JsSet.has_opt userId (r_members room) &&
            JsSet.has targetUserId (r_members room)
        | None => false
        end
      else true
  | None => true
  end.

(** webrtc:offer (server.js:538-566) *)
Definition webrtc_offer (targetUserId : string) (offer : JsVal)
    (roomId : option string) (st : State) : State * list Effect :=
  let userId := socketToUser st !! sid in
  match JsMap.get targetUserId (users st) with
  | None => (st, [emit_error sid "Target user not found"])
  | Some targetUser =>
      if negb (same_room st userId targetUserId roomId) then
        (st, [emit_error sid "Both users must be in the same room for direct connection"])
      else
        (st, [Emit (ToChannel (u_socketId targetUser)) "webrtc:offer"
                (signal_payload userId "offer" offer roomId)])
  end.

(** webrtc:answer (server.js:568-587) *)
Definition webrtc_answer (targetUserId : string) (answer : JsVal)
    (roomId : option string) (st : State) : State * list Effect :=
  let userId := socketToUser st !! sid in
  match JsMap.get targetUserId (users st) with
  | None => (st, [emit_error sid "Target user not found"])
  | Some targetUser =>
      (st, [Emit (ToChannel (u_socketId targetUser)) "webrtc:answer"
              (signal_payload userId "answer" answer roomId)])
  end.

(** webrtc:ice-candidate (server.js:589-608) *)
Definition webrtc_ice_candidate (targetUserId : string) (candidate : JsVal)
    (roomId : option string) (st : State) : State * list Effect :=
  let userId := socketToUser st !! sid in
  match JsMap.get targetUserId (users st) with
  | None => (st, [emit_error sid "Target user not found"])
  | Some targetUser =>
      (st, [Emit (ToChannel (u_socketId targetUser)) "webrtc:ice-candidate"
              (signal_payload userId "candidate" candidate roomId)])
  end.

(** The loop of the disconnect handler over [rooms.entries()]
    (server.js:615-629).  Deleting the entry under the cursor does not
    disturb the iteration of a JS [Map], so the loop is a single pass. *)
Fixpoint disconnect_rooms (us : list (string * User)) (userId : string)
    (rs : list (string * Room)) : list (string * Room) * list Effect :=
  match rs with
  | [] => ([], [])
  | (roomId, room) :: rs' =>
      let '(rest, effs) := disconnect_rooms us userId rs' in
      if JsSet.has userId (r_members room) then
        let '(room', emptied) := remove_member userId room in
        if emptied then (rest, effs)
        else ((roomId, room') :: rest,
              Emit (ToChannelExcept roomId sid) "room:update"
                (JObj [("roomId", JStr roomId); ("room", serializeRoom us room')])
              :: effs)
      else ((roomId, room) :: rest, effs)
  end.

(** disconnect (server.js:611-638) *)
Definition disconnect (st : State) : State * list Effect :=
  match socketToUser st !! sid with
  | Some userId =>
      if truthy (Some userId) then
        let '(rooms', effs) := disconnect_rooms (users st) userId (rooms st) in
        let st' :=
          {| users := JsMap.delete userId (users st);
             rooms := rooms';
             socketToUser := delete sid (socketToUser st);
             userSessions := userSessions st;
             userMessageCounts := userMessageCounts st;
             userFileCounts := userFileCounts st |} in
        (st', (effs ++ [broadcastUserList st'; broadcastRoomList st'])%list)
      else (st, [])
  | None => (st, [])
  end.
End Handlers.

(** ** Inbound events and the dispatcher *)

Inductive ClientEvent : Type :=
| UserJoin (name : string) (userId avatarUrl : option string)
| RoomCreate (name : string) (isPrivate : bool) (pin : option string)
    (maxMembers : option Z)
| RoomJoin (roomId : string) (pin : option string)
| RoomJoinByPin (pin : option string)
| RoomKick (roomId targetUserId : string)
| RoomListRequest
| RoomLeave (roomId : string)
| RoomMessage (roomId : string) (message : JsVal)
| RoomTyping (roomId : string) (isTyping : JsVal)
| RoomMessageEdit (roomId : string) (messageId newText : JsVal)
| RoomMessageDelete (roomId : string) (messageId : JsVal)
| RoomReaction (roomId : string) (messageId emoji action : JsVal)
| RoomFileStart (roomId : string) (fileId : JsVal) (fileName : string)
    (fileSize totalChunks : Z)
| RoomFileChunk (roomId : string) (fileId chunkIndex chunk : JsVal)
| RoomFileEnd (roomId : string) (fileId : JsVal)
| WebrtcOffer (targetUserId : string) (offer : JsVal) (roomId : option string)
| WebrtcAnswer (targetUserId : string) (answer : JsVal) (roomId : option string)
| WebrtcIceCandidate (targetUserId : string) (candidate : JsVal)
    (roomId : option string)
| Disconnect.

Definition handle (B : Bcrypt) (env : Env) (sid : string) (ev : ClientEvent)
    (st : State) : State * list Effect :=
  match ev with
  | UserJoin name userId avatarUrl => user_join env sid name userId avatarUrl st
  | RoomCreate name isPrivate pin maxMembers =>
      room_create B env sid name isPrivate pin maxMembers st
  | RoomJoin roomId pin => room_join B env sid roomId pin st
  | RoomJoinByPin pin => room_joinByPin B sid pin st
  | RoomKick roomId targetUserId => room_kick sid roomId targetUserId st
  | RoomListRequest => room_list_request sid st
  | RoomLeave roomId => room_leave sid roomId st
  | RoomMessage roomId message => room_message env sid roomId message st
  | RoomTyping roomId isTyping => room_typing sid roomId isTyping st
  | RoomMessageEdit roomId messageId newText =>
      room_message_edit sid roomId messageId newText st
  | RoomMessageDelete roomId messageId => room_message_delete sid roomId messageId st
  | RoomReaction roomId messageId emoji action =>
      room_reaction sid roomId messageId emoji action st
  | RoomFileStart roomId fileId fileName fileSize totalChunks =>
      room_file_start env sid roomId fileId fileName fileSize totalChunks st
  | RoomFileChunk roomId fileId chunkIndex chunk =>
      room_file_chunk sid roomId fileId chunkIndex chunk st
  | RoomFileEnd roomId fileId => room_file_end sid roomId fileId st
  | WebrtcOffer targetUserId offer roomId => webrtc_offer sid targetUserId offer roomId st
  | WebrtcAnswer targetUserId answer roomId =>
      webrtc_answer sid targetUserId answer roomId st
  | WebrtcIceCandidate targetUserId candidate roomId =>
      webrtc_ice_candidate sid targetUserId candidate roomId st
  | Disconnect => disconnect sid st
  end.

(** A run of the server: the events it receives, each with the socket it
    arrives on and the environment values its handler draws. *)
Fixpoint run (B : Bcrypt) (tr : list (Env * string * ClientEvent)) (st : State)
    : State * list Effect :=
  match tr with
  | [] => (st, [])
  | (env, sid, ev) :: tr' =>
      let '(st1, effs1) := handle B env sid ev st in
      let '(st2, effs2) := run B tr' st1 in
      (st2, (effs1 ++ effs2)%list)
  end.

(** ** Predicates the properties are stated with *)

(** A room of the directory is well formed: it has a member and its lead
    is one of its members. *)
Definition room_ok (room : Room) : Prop :=
  r_members room ≠ [] ∧ r_leadUserId room ∈ r_members room.

Definition directory_ok (st : State) : Prop :=
  Forall (λ kv : string * Room, room_ok kv.2) (rooms st).

(** Executable form of [room_ok]. *)
Definition room_okb (room : Room) : bool :=
  negb (JsSet.size (r_members room) =? 0)%Z &&
  JsSet.has (r_leadUserId room) (r_members room).

Definition directory_okb (st : State) : bool :=
  forallb (λ kv : string * Room, room_okb kv.2) (rooms st).

(** The handler answered with error events only, and at least one: the
    operation was refused and nothing was forwarded. *)
Definition rejected (effs : list Effect) : bool :=
  existsb is_error effs && forallb is_error effs.

(** The events named [room:...]. *)
Definition is_room_op (ev : ClientEvent) : bool :=
  match ev with
  | UserJoin _ _ _ | WebrtcOffer _ _ _ | WebrtcAnswer _ _ _
  | WebrtcIceCandidate _ _ _ | Disconnect => false
  | _ => true
  end.

(** The room handlers that return without an emit when their guard fails. *)
Definition drops_silently (ev : ClientEvent) : bool :=
  match ev with
  | RoomLeave _ | RoomTyping _ _ => true
  | _ => false
  end.

(** Successive [checkRateLimit] calls, each with its own clock reading. *)
Fixpoint check_all (calls : list (Z * string * EventClass)) (st : State)
    : list bool * State :=
  match calls with
  | [] => ([], st)
  | (t, userId, type) :: calls' =>
      let '(ok, st1) := checkRateLimit t userId type st in
      let '(oks, st2) := check_all calls' st1 in
      (ok :: oks, st2)
  end.

Definition message_checks (userId : string) (ts : list Z)
    : list (Z * string * EventClass) :=
  (λ t, (t, userId, MessageClass)) <$> ts.

(** No window is open for [userId] at time [t]: the table has no entry for
    it, or the entry's [resetTime] has passed. *)
Definition window_expired (counts : gmap string RateCount) (userId : string)
    (t : Z) : Prop :=
  match counts !! userId with
  | Some userCount => (rc_resetTime userCount < t)%Z
  | None => True
  end.

(** Every stored counter of both rate tables is within its class limit. *)
Definition counts_bounded (st : State) : Prop :=
  ∀ type userId userCount,
    counts_of type st !! userId = Some userCount →
    (rc_count userCount ≤ limit_of type)%Z.


(** ** Scenarios *)

(** A stand-in for bcrypt to run scenarios with.  It has the one property of
    bcrypt the scenarios use: a pin matches the digest made from it, and no
    other pin does. *)
Definition test_bcrypt : Bcrypt :=
  {| bcrypt_hash := λ salt pin, "$2a$" +:+ pin;
     bcrypt_compare := λ pin h, String.eqb h ("$2a$" +:+ pin) |}.

Definition at_time (t : Z) (id : string) : Env :=
  {| now := t; uuid := id; salt := "salt" |}.

(** Alice registers on socket s1 and opens the public room r1. *)
Definition alice_opens_r1 : list (Env * string * ClientEvent) :=
  [(at_time 1000 "u1", "s1", UserJoin "alice" None None);
   (at_time 2000 "r1", "s1", RoomCreate "lobby" false None (Some 5%Z))].

(** ... then Bob registers on socket s2 and joins r1. *)
Definition bob_joins_r1 : list (Env * string * ClientEvent) :=
  alice_opens_r1 ++
  [(at_time 3000 "u2", "s2", UserJoin "bob" None None);
   (at_time 4000 "", "s2", RoomJoin "r1" None)].

(** Alice opens a private room of two with PIN 4821, Bob joins it with the
    PIN, and Carol registers on socket s3. *)
Definition private_room_full : list (Env * string * ClientEvent) :=
  [(at_time 1000 "u1", "s1", UserJoin "alice" None None);
   (at_time 2000 "r1", "s1", RoomCreate "vault" true (Some "4821") (Some 2%Z));
   (at_time 3000 "u2", "s2", UserJoin "bob" None None);
   (at_time 4000 "", "s2", RoomJoin "r1" (Some "4821"));
   (at_time 5000 "u3", "s3", UserJoin "carol" None None)].

(** ... or Alice promises a room of one. *)
Definition alice_opens_room_of_one : list (Env * string * ClientEvent) :=
  [(at_time 1000 "u1", "s1", UserJoin "alice" None None);
   (at_time 2000 "r1", "s1", RoomCreate "solo" false None (Some 1%Z))].

(** Alice is in r1; Bob is registered on socket s2 and in no room. *)
Definition bob_outside_r1 : list (Env * string * ClientEvent) :=
  alice_opens_r1 ++
  [(at_time 3000 "u2", "s2", UserJoin "bob" None None)].

(** Alice, in r1, starts five small file transfers within one minute. *)
Definition alice_sends_five_files : list (Env * string * ClientEvent) :=
  (alice_opens_r1 ++
   ((λ t, (at_time t "", "s1", RoomFileStart "r1" (JStr "f") "a.txt" 10%Z 1%Z))
      <$> [3000; 3001; 3002; 3003; 3004]%Z))%list.

(** Room r1 lists u1 and a stale id u9 that no longer resolves. *)
Definition stale_room : Room :=
  {| r_id := "r1"; r_name := "lobby"; r_isPrivate := false; r_pinHash := None;
     r_leadUserId := "u1"; r_members := ["u1"; "u9"]; r_maxMembers := 5%Z;
     r_createdAt := 2000%Z |}.

Definition only_alice : list (string * User) :=
  [("u1", {| u_id := "u1"; u_name := "alice"; u_avatarUrl := None;
             u_socketId := "s1"; u_joinedAt := 1000%Z; u_lastSeen := 1000%Z |})].

(** ** Handlers and helpers outside the dispatcher *)

Definition with_name (n : string) (u : User) : User :=
  {| u_id := u_id u; u_name := n; u_avatarUrl := u_avatarUrl u;
     u_socketId := u_socketId u; u_joinedAt := u_joinedAt u;
     u_lastSeen := u_lastSeen u |}.

Definition with_avatarUrl (a : option string) (u : User) : User :=
  {| u_id := u_id u; u_name := u_name u; u_avatarUrl := a;
     u_socketId := u_socketId u; u_joinedAt := u_joinedAt u;
     u_lastSeen := u_lastSeen u |}.

(** user:update (server.js:106-123).  [name] and [avatarUrl] are [Some]
    when [typeof] says string.  [String.prototype.trim] is the engine's
    and is taken as a parameter. *)
Definition user_update (trim : string → string) (sid : string)
    (name avatarUrl : option string) (st : State) : State * list Effect :=
  match registered st (socketToUser st !! sid) with
  | None => (st, [])
  | Some userId =>
      match JsMap.get userId (users st) with
      | None => (st, [])
      | Some user =>
          let user1 :=
            match name with
            | Some n => if truthy (Some (trim n))
                        then with_name (escapeHtml (trim n)) user else user
            | None => user
            end in
          let user2 :=
            match avatarUrl with
            | Some a => with_avatarUrl (Some a) user1
            | None => user1
            end in
          let st' := set_users (JsMap.set userId user2) st in
          (st', [broadcastUserList st';
                 Emit (ToSocket sid) "user:updated" (JObj [("user", user_to_js user2)])])
      end
  end.

(** An entry of [os.networkInterfaces()]. *)
Record Iface := mkIface {
  if_family : string;
  if_internal : bool;
  if_address : string
}.

(** [iface.family === 'IPv4' && !iface.internal] (server.js:724) *)
Definition external_ipv4 (iface : Iface) : bool :=
  String.eqb (if_family iface) "IPv4" && negb (if_internal iface).

(** [getLocalIp()] (server.js:720-730), over the interface table the
    operating system reports: names in key order, each with its entries. *)
Fixpoint getLocalIp (interfaces : list (string * list Iface)) : string :=
  match interfaces with
  | [] => "localhost"
  | (_, ifaces) :: rest =>
      match List.find external_ipv4 ifaces with
      | Some iface => if_address iface
      | None => getLocalIp rest
      end
  end.

(** ** Well-formedness of the registries *)





(** The events whose handlers only relay: typing, edit, delete, reaction,
    file chunk and end, the three signaling messages, and the list request. *)
Definition is_relay_only (ev : ClientEvent) : bool :=
  match ev with
  | RoomTyping _ _ | RoomMessageEdit _ _ _ | RoomMessageDelete _ _
  | RoomReaction _ _ _ _ | RoomFileChunk _ _ _ _ | RoomFileEnd _ _
  | WebrtcOffer _ _ _ | WebrtcAnswer _ _ _ | WebrtcIceCandidate _ _ _
  | RoomListRequest => true
  | _ => false
  end.



(** The user registry is a map, and every user sits under its own id. *)
Definition users_wf (st : State) : Prop :=
  NoDup (users st).*1 ∧
  Forall (λ kv : string * User, u_id kv.2 = kv.1) (users st).

(** The addressee of an emit is the socket [sid] itself. *)
Definition to_socket (sid : string) (e : Effect) : bool :=
  match e with
  | Emit (ToSocket s) _ _ => String.eqb s sid
  | Emit (ToChannel s) _ _ => String.eqb s sid
  | _ => false
  end.

(** The characters of a string. *)
Definition chars (s : string) : list ascii := list_ascii_of_string s.

(** What [escapeHtml] puts in the place of one character: the entry of its
    [map] for the five characters the regular expression matches. *)
Definition escape_char (c : ascii) : string :=
  if Ascii.eqb c "&" then "&amp;"
  else if Ascii.eqb c "<" then "&lt;"
  else if Ascii.eqb c ">" then "&gt;"
  else if Ascii.eqb c quote_char then "&quot;"
  else if Ascii.eqb c apos_char then "&#039;"
  else String c EmptyString.

(** The characters that open or close markup and attribute values. *)
Definition html_special (c : ascii) : Prop :=
  c = "<"%char ∨ c = ">"%char ∨ c = quote_char ∨ c = apos_char.

(** The test of the room:joinByPin scan on one room (server.js:243-245). *)
Definition pin_matches (B : Bcrypt) (pin : string) (room : Room) : bool :=
  match r_pinHash room with
  | Some h => r_isPrivate room && truthy (Some h) && bcrypt_compare B pin h
  | None => false
  end.

(** Alice, in r1 with Bob, sends ten messages within one minute. *)
Definition alice_sends_ten_messages : list (Env * string * ClientEvent) :=
  (bob_joins_r1 ++
   ((λ t, (at_time t "", "s1", RoomMessage "r1" (JStr "hi")))
      <$> [5000; 5001; 5002; 5003; 5004; 5005; 5006; 5007; 5008; 5009]%Z))%list.

(** A machine with a loopback and one LAN address. *)
Definition two_interfaces : list (string * list Iface) :=
  [("lo", [mkIface "IPv4" true "127.0.0.1"; mkIface "IPv6" true "::1"]);
   ("eth0", [mkIface "IPv6" false "fe80::1"; mkIface "IPv4" false "192.168.1.20"])].

(** * Properties *)

(** ** Facts about the ordered set and map *)

Section JsSetFacts.
Implicit Types (x y : string) (s : list string).

Lemma JsSet_has_true x s : JsSet.has x s = true ↔ x ∈ s.
Proof.
  induction s as [|z s IH]; simpl.
  - split; [discriminate | intros H; inversion H].
  - destruct (String.eqb_spec x z) as [->|Hne].
    + split; [intros _; left | done].
    + rewrite IH. split; [by right | ].
      intros H. apply elem_of_cons in H as [?|?]; [done | done].
Qed.

Lemma JsSet_has_false x s : JsSet.has x s = false ↔ x ∉ s.
Proof.
  rewrite <- JsSet_has_true. destruct (JsSet.has x s); split; congruence.
Qed.

Lemma JsSet_elem_of_delete x y s : y ∈ JsSet.delete x s ↔ y ∈ s ∧ y ≠ x.
Proof.
  induction s as [|z s IH]; simpl.
  - split; [intros H; inversion H | intros [H _]; inversion H].
  - destruct (String.eqb_spec x z) as [->|Hne].
    + rewrite IH, elem_of_cons. intuition congruence.
    + rewrite !elem_of_cons, IH. intuition congruence.
Qed.



Lemma JsSet_size_0 s : (JsSet.size s =? 0)%Z = true ↔ s = [].
Proof.
  unfold JsSet.size. rewrite Z.eqb_eq. destruct s; simpl; [done|].
  split; [lia | discriminate].
Qed.
End JsSetFacts.

Section JsMapFacts.
Context {V : Type}.
Implicit Types (k : string) (v : V) (m : list (string * V)) (P : V → Prop).





Lemma JsMap_get_set_eq k v m : JsMap.get k (JsMap.set k v m) = Some v.
Proof.
  unfold JsMap.get. induction m as [|[k' v'] m IH]; simpl.
  - by rewrite String.eqb_refl.
  - destruct (String.eqb k k') eqn:E; simpl; rewrite E; done.
Qed.
End JsMapFacts.

(** ** Handlers that leave the directory alone *)

Lemma rooms_touch t u st : rooms (touch t u st) = rooms st.
Proof. unfold touch. by destruct (JsMap.get u (users st)). Qed.

Lemma users_checkRateLimit t u type st :
  users (checkRateLimit t u type st).2 = users st.
Proof.
  unfold checkRateLimit. destruct (check_counts _ _ _ _) as [ok c].
  by destruct type.
Qed.


(** ** The room invariant and the handlers that keep it *)

Lemma member_room_Some st userId roomId u room :
  member_room st userId roomId = Some (u, room) →
  userId = Some u ∧ JsMap.get roomId (rooms st) = Some room ∧ u ∈ r_members room.
Proof.
  unfold member_room. destruct (JsMap.get roomId (rooms st)) as [r|]; [|done].
  destruct userId as [w|]; [|done].
  destruct (JsSet.has w (r_members r)) eqn:Hh; [|done].
  intros ?. simplify_eq. by apply JsSet_has_true in Hh.
Qed.




Ltac case_branch :=
  match goal with
  | |- context [match ?x with _ => _ end] =>
      lazymatch x with
      | context [match _ with _ => _ end] => fail
      | _ => destruct x eqn:?
      end
  end.

Section DirectoryInvariant.
Variable B : Bcrypt.
Variable env : Env.
Variable sid : string.
Implicit Types (st : State) (roomId : string).









End DirectoryInvariant.



Lemma room_okb_spec room : room_okb room = true ↔ room_ok room.
Proof.
  unfold room_okb, room_ok.
  rewrite andb_true_iff, negb_true_iff, JsSet_has_true.
  rewrite <- not_true_iff_false, JsSet_size_0. done.
Qed.

Lemma directory_okb_spec st : directory_okb st = true ↔ directory_ok st.
Proof.
  unfold directory_okb, directory_ok. rewrite forallb_forall, Forall_forall.
  split; intros H kv Hin.
  - apply room_okb_spec, H. by apply list_elem_of_In.
  - apply room_okb_spec, H. by apply list_elem_of_In.
Qed.

Lemma test_bcrypt_accepts salt pin :
  bcrypt_compare test_bcrypt pin (bcrypt_hash test_bcrypt salt pin) = true.
Proof. simpl. apply String.eqb_refl. Qed.

(** ** Room membership and leadership (C1) *)

(** C1, evaluated where the code departs from it.  Alice leads room r1 and
    Bob is its second member; the directory is well formed.  Alice sends
    room:kick with her own id as target: the handler deletes her from the
    members and stops there, so r1 stays in the directory led by u1, who is
    not one of its members.  When Alice is alone in r1 the same kick leaves
    r1 in the directory with no member at all.  The leave and disconnect
    handlers reassign the lead and delete the emptied room; room:kick does
    neither. *)
Theorem kick_of_lead_breaks_room_invariant :
  let st := (run test_bcrypt bob_joins_r1 initial).1 in
  let st' := (handle test_bcrypt (at_time 5000 "") "s1" (RoomKick "r1" "u1") st).1 in
  let solo := (run test_bcrypt alice_opens_r1 initial).1 in
  let solo' := (handle test_bcrypt (at_time 5000 "") "s1" (RoomKick "r1" "u1") solo).1 in
  directory_ok st ∧
  (r_leadUserId <$> JsMap.get "r1" (rooms st')) = Some "u1" ∧
  (r_members <$> JsMap.get "r1" (rooms st')) = Some ["u2"] ∧
  ¬ directory_ok st' ∧
  directory_ok solo ∧
  (r_members <$> JsMap.get "r1" (rooms solo')) = Some [] ∧
  ¬ directory_ok solo'.
Proof.
  cbv zeta. repeat split; try (by vm_compute).
  - by apply directory_okb_spec; vm_compute.
  - intros H%directory_okb_spec. by vm_compute in H.
  - by apply directory_okb_spec; vm_compute.
  - intros H%directory_okb_spec. by vm_compute in H.
Qed.

(** ** Joining a full room (C2) *)

(** The capacity guard of room:join: a registered identity that asks to
    join a room whose member count has reached [maxMembers] gets the
    "Room is full" error and nothing changes. *)
Lemma room_join_full B env sid roomId pin st userId room :
  registered st (socketToUser st !! sid) = Some userId →
  JsMap.get roomId (rooms st) = Some room →
  JsSet.size (r_members room) = r_maxMembers room →
  room_join B env sid roomId pin st = (st, [emit_error sid "Room is full"]).
Proof.
  intros Hreg Hget Hfull. unfold room_join. rewrite Hreg, Hget, Hfull.
  by rewrite Z.leb_refl.
Qed.

Lemma room_join_full_witness :
  room_join test_bcrypt (at_time 6000 "") "s3" "r1" (Some "4821")
    (run test_bcrypt private_room_full initial).1
  = ((run test_bcrypt private_room_full initial).1, [emit_error "s3" "Room is full"]).
Proof.
  apply (room_join_full test_bcrypt (at_time 6000 "") "s3" "r1" (Some "4821")
           (run test_bcrypt private_room_full initial).1 "u3"
           {| r_id := "r1"; r_name := "vault"; r_isPrivate := true;
              r_pinHash := Some "$2a$4821"; r_leadUserId := "u1";
              r_members := ["u1"; "u2"]; r_maxMembers := 2; r_createdAt := 2000 |});
    reflexivity.
Defined.

(** room:joinByPin has no capacity guard: whenever the scan finds a room,
    the caller is added to it, whatever its member count. *)
Lemma room_joinByPin_adds B sid pin st userId k room :
  registered st (socketToUser st !! sid) = Some userId →
  truthy (Some pin) = true →
  find_by_pin B pin (rooms st) = Some (k, room) →
  JsMap.get k (rooms (room_joinByPin B sid (Some pin) st).1)
  = Some (with_members (JsSet.add userId (r_members room)) room).
Proof.
  intros Hreg Hpin Hfind. unfold room_joinByPin. rewrite Hreg, Hpin, Hfind.
  simpl. apply JsMap_get_set_eq.
Qed.

(** C2, evaluated where the code departs from it.  The private room r1 has
    [maxMembers = 2] and two members, Alice and Bob.  Carol, registered on
    socket s3, is refused by room:join with "Room is full" and the state is
    unchanged; the same Carol sending room:joinByPin with the room's PIN is
    added as a third member and receives room:joined, not an error. *)
Theorem joinByPin_enters_full_room :
  let st := (run test_bcrypt private_room_full initial).1 in
  let by_id := room_join test_bcrypt (at_time 6000 "") "s3" "r1" (Some "4821") st in
  let by_pin := room_joinByPin test_bcrypt "s3" (Some "4821") st in
  registered st (socketToUser st !! "s3") = Some "u3" ∧
  (r_members <$> JsMap.get "r1" (rooms st)) = Some ["u1"; "u2"] ∧
  (r_maxMembers <$> JsMap.get "r1" (rooms st)) = Some 2%Z ∧
  by_id = (st, [emit_error "s3" "Room is full"]) ∧
  (r_members <$> JsMap.get "r1" (rooms by_pin.1)) = Some ["u1"; "u2"; "u3"] ∧
  existsb is_error by_pin.2 = false ∧
  existsb (is_emit_of "room:joined") by_pin.2 = true.
Proof.
  cbv zeta. repeat split; by vm_compute.
Qed.

(** ** The member limit of a new room (C3) *)

(** What the clamp of room:create does guarantee: the upper bound, the
    default for an absent or zero request, and the identity below it. *)
Lemma create_maxMembers_le maxMembers : (create_maxMembers maxMembers ≤ MAX_ROOM_MEMBERS)%Z.
Proof. unfold create_maxMembers. apply Z.le_min_r. Qed.

Lemma create_maxMembers_small n :
  (n ≠ 0)%Z → (n ≤ MAX_ROOM_MEMBERS)%Z → create_maxMembers (Some n) = n.
Proof.
  intros Hn Hle. unfold create_maxMembers.
  destruct (Z.eqb_spec n 0); [done|]. by apply Z.min_l.
Qed.

(** C3, evaluated where the code departs from it.  room:create computes
    [Math.min(maxMembers || 50, 50)]: a request of 1, or of a negative
    number, is below the cap and is stored as it is, so the room created by
    [RoomCreate "solo" false None (Some 1)] has [maxMembers = 1], outside
    [2, 50]. *)
Theorem room_create_stores_maxMembers_below_two :
  let st := (run test_bcrypt alice_opens_room_of_one initial).1 in
  (r_maxMembers <$> JsMap.get "r1" (rooms st)) = Some 1%Z ∧
  create_maxMembers (Some 1%Z) = 1%Z ∧
  create_maxMembers (Some (-3)%Z) = (-3)%Z ∧
  ¬ (2 ≤ create_maxMembers (Some 1%Z) ≤ MAX_ROOM_MEMBERS)%Z.
Proof.
  cbv zeta. repeat split; try (by vm_compute).
  vm_compute. intros [H _]. by apply H.
Qed.

(** ** Room-scoped signaling (C4) *)



(** C4, evaluated where the code departs from it.  Alice is the only member
    of r1; Bob is registered on socket s2 and is not a member.  Bob's
    webrtc:offer naming r1 is refused with an error.  His webrtc:answer and
    webrtc:ice-candidate naming the same room are forwarded to Alice's
    socket: those two handlers never look the room up. *)
Theorem answer_and_candidate_skip_room_check :
  let st := (run test_bcrypt bob_outside_r1 initial).1 in
  member_room st (socketToUser st !! "s2") "r1" = None ∧
  webrtc_offer "s2" "u1" (JStr "sdp") (Some "r1") st
  = (st, [emit_error "s2" "Both users must be in the same room for direct connection"]) ∧
  webrtc_answer "s2" "u1" (JStr "sdp") (Some "r1") st
  = (st, [Emit (ToChannel "s1") "webrtc:answer"
            (signal_payload (Some "u2") "answer" (JStr "sdp") (Some "r1"))]) ∧
  webrtc_ice_candidate "s2" "u1" (JStr "ice") (Some "r1") st
  = (st, [Emit (ToChannel "s1") "webrtc:ice-candidate"
            (signal_payload (Some "u2") "candidate" (JStr "ice") (Some "r1"))]).
Proof. cbv zeta. repeat split; by vm_compute. Qed.

(** ** The rate limiter (C5, C9) *)

Section RateLimiter.
Implicit Types (c : gmap string RateCount) (u : string) (t limit : Z).

Lemma check_counts_fresh limit t u c :
  window_expired c u t →
  check_counts limit t u c = (true, <[u := mkRateCount 1 (t + 60000)]> c).
Proof.
  unfold window_expired, check_counts. destruct (c !! u) as [rc|]; [|done].
  intros H. by rewrite (proj2 (Z.ltb_lt _ _) H).
Qed.

Lemma check_counts_within limit t u c rc :
  c !! u = Some rc → (t ≤ rc_resetTime rc)%Z → (rc_count rc < limit)%Z →
  check_counts limit t u c
  = (true, <[u := mkRateCount (rc_count rc + 1) (rc_resetTime rc)]> c).
Proof.
  intros Hc Ht Hn. unfold check_counts. rewrite Hc.
  rewrite (proj2 (Z.ltb_ge _ _) Ht).
  destruct (Z.leb_spec limit (rc_count rc)); [lia | done].
Qed.

Lemma check_counts_denied limit t u c rc :
  c !! u = Some rc → (t ≤ rc_resetTime rc)%Z → (limit ≤ rc_count rc)%Z →
  check_counts limit t u c = (false, c).
Proof.
  intros Hc Ht Hn. unfold check_counts. rewrite Hc.
  rewrite (proj2 (Z.ltb_ge _ _) Ht).
  by rewrite (proj2 (Z.leb_le _ _) Hn).
Qed.

(** A denied call returns the table it was given. *)
Lemma check_counts_false limit t u c :
  (check_counts limit t u c).1 = false → (check_counts limit t u c).2 = c.
Proof.
  unfold check_counts. destruct (c !! u) as [rc|]; [|done].
  destruct (rc_resetTime rc <? t)%Z; [done|].
  by destruct (limit <=? rc_count rc)%Z.
Qed.

Lemma check_counts_keeps_bound limit t u c :
  (1 ≤ limit)%Z →
  (∀ v rc, c !! v = Some rc → (rc_count rc ≤ limit)%Z) →
  ∀ v rc, (check_counts limit t u c).2 !! v = Some rc → (rc_count rc ≤ limit)%Z.
Proof.
  intros Hlim Hc v rc. unfold check_counts.
  destruct (c !! u) as [rc0|] eqn:Hu; simpl.
  - destruct (rc_resetTime rc0 <? t)%Z; simpl.
    + rewrite lookup_insert. case_decide; [intros [= <-]; by simpl | apply Hc].
    + destruct (Z.leb_spec limit (rc_count rc0)); simpl; [apply Hc|].
      rewrite lookup_insert. case_decide; [intros [= <-]; simpl; lia | apply Hc].
  - rewrite lookup_insert. case_decide; [intros [= <-]; by simpl | apply Hc].
Qed.

Lemma set_counts_id type st : set_counts type (counts_of type st) st = st.
Proof. by destruct type, st. Qed.

Lemma counts_of_set_counts type c st : counts_of type (set_counts type c st) = c.
Proof. by destruct type. Qed.

Lemma checkRateLimit_false t u type st :
  (checkRateLimit t u type st).1 = false → (checkRateLimit t u type st).2 = st.
Proof.
  unfold checkRateLimit.
  pose proof (check_counts_false (limit_of type) t u (counts_of type st)) as H.
  destruct (check_counts _ _ _ _) as [ok c']. simpl in *.
  intros Hok. rewrite (H Hok). apply set_counts_id.
Qed.

Lemma limit_of_pos type : (1 ≤ limit_of type)%Z.
Proof. by destruct type. Qed.

Lemma checkRateLimit_keeps_bound t u type st :
  counts_bounded st → counts_bounded (checkRateLimit t u type st).2.
Proof.
  intros Hb type' v rc. unfold checkRateLimit.
  pose proof (check_counts_keeps_bound (limit_of type) t u (counts_of type st)
                (limit_of_pos type) (Hb type)) as H.
  destruct (check_counts _ _ _ _) as [ok c']. simpl in *.
  destruct type, type'; simpl; first [apply H | apply (Hb MessageClass) | apply (Hb FileClass)].
Qed.

Lemma check_all_keeps_bound calls st :
  counts_bounded st → counts_bounded (check_all calls st).2.
Proof.
  revert st. induction calls as [|[[t u] type] calls IH]; intros st Hb; [done|].
  simpl. pose proof (checkRateLimit_keeps_bound t u type st Hb) as H1.
  destruct (checkRateLimit t u type st) as [ok st1]. simpl in H1.
  specialize (IH st1 H1). by destruct (check_all calls st1) as [oks st2].
Qed.

Lemma counts_bounded_initial : counts_bounded initial.
Proof. intros type v rc. by destruct type. Qed.

(** Inside an open window that has room for them, message checks are all
    allowed and each adds one to the stored counter. *)
Lemma check_all_within u r ts : ∀ n st,
  userMessageCounts st !! u = Some (mkRateCount n r) →
  Forall (λ t, t ≤ r)%Z ts →
  (n + Z.of_nat (length ts) ≤ MESSAGE_RATE_LIMIT)%Z →
  (check_all (message_checks u ts) st).1 = replicate (length ts) true ∧
  userMessageCounts (check_all (message_checks u ts) st).2 !! u
  = Some (mkRateCount (n + Z.of_nat (length ts)) r).
Proof.
  induction ts as [|t ts IH]; intros n st Hu Hts Hn.
  - simpl. by rewrite Z.add_0_r.
  - apply Forall_cons in Hts as [Ht Hts].
    cbn [message_checks fmap list_fmap check_all length] in *.
    unfold checkRateLimit. cbn [counts_of limit_of].
    rewrite (check_counts_within _ _ _ _ _ Hu) by (simpl; lia).
    cbn [rc_count rc_resetTime].
    set (st1 := set_counts MessageClass _ st).
    assert (Hu1 : userMessageCounts st1 !! u = Some (mkRateCount (n + 1) r)).
    { subst st1. simpl. apply lookup_insert_eq. }
    destruct (IH (n + 1)%Z st1 Hu1 Hts) as [Hoks Hst]; [lia|].
    fold (message_checks u ts).
    destruct (check_all (message_checks u ts) st1) as [oks st2]. simpl in *.
    split; [by rewrite Hoks|]. rewrite Hst. do 2 f_equal. lia.
Qed.
End RateLimiter.

(** C5.  With the message limit of 10 per 60 s window: when a window for
    [u] starts at [t0] (no entry, or the stored [resetTime] has passed), the
    check at [t0] and the next nine checks at times up to [t0 + 60000] are
    allowed, and an eleventh check at a time [t11 <= t0 + 60000] is denied
    and changes nothing.  And whatever is stored for [u], a check at a time
    strictly past the stored [resetTime] is allowed and stores count 1 with
    the window [t + 60000]. *)
Theorem message_rate_window :
  (∀ st u t0 ts t11,
     window_expired (userMessageCounts st) u t0 →
     length ts = 9 →
     Forall (λ t, t ≤ t0 + 60000)%Z ts →
     (t11 ≤ t0 + 60000)%Z →
     let st10 := (check_all (message_checks u (t0 :: ts)) st).2 in
     (check_all (message_checks u (t0 :: ts)) st).1 = replicate 10 true ∧
     userMessageCounts st10 !! u = Some (mkRateCount 10 (t0 + 60000)) ∧
     checkRateLimit t11 u MessageClass st10 = (false, st10)) ∧
  (∀ st u userCount t,
     userMessageCounts st !! u = Some userCount →
     (rc_resetTime userCount < t)%Z →
     (checkRateLimit t u MessageClass st).1 = true ∧
     userMessageCounts (checkRateLimit t u MessageClass st).2 !! u
     = Some (mkRateCount 1 (t + 60000))).
Proof.
  split.
  - intros st u t0 ts t11 Hfresh Hlen Hts Ht11.
    assert (H10 : ∃ st10,
               check_all (message_checks u (t0 :: ts)) st = (replicate 10 true, st10) ∧
               userMessageCounts st10 !! u = Some (mkRateCount 10 (t0 + 60000))).
    { cbn [message_checks fmap list_fmap check_all].
      unfold checkRateLimit. cbn [counts_of limit_of].
      rewrite (check_counts_fresh _ _ _ _ Hfresh).
      set (st1 := set_counts MessageClass _ st).
      assert (Hu1 : userMessageCounts st1 !! u = Some (mkRateCount 1 (t0 + 60000))).
      { subst st1. simpl. apply lookup_insert_eq. }
      destruct (check_all_within u (t0 + 60000) ts 1 st1 Hu1 Hts) as [Hoks Hst];
        [rewrite Hlen; by vm_compute|].
      fold (message_checks u ts).
      destruct (check_all (message_checks u ts) st1) as [oks st2]. simpl in Hoks, Hst.
      rewrite Hlen in Hoks, Hst. exists st2. by rewrite Hoks. }
    destruct H10 as (st10 & -> & Hst). cbn [fst snd]. cbv zeta.
    split; [done|]. split; [done|].
    unfold checkRateLimit. cbn [counts_of limit_of].
    rewrite (check_counts_denied _ _ _ _ _ Hst) by (simpl; first [done | lia]).
    by rewrite (set_counts_id MessageClass).
  - intros st u rc t Hu Ht. unfold checkRateLimit. cbn [counts_of limit_of].
    rewrite check_counts_fresh by (unfold window_expired; by rewrite Hu).
    simpl. split; [done | apply lookup_insert_eq].
Qed.

Lemma message_rate_window_witness :
  ((check_all (message_checks "u1" [0; 1; 2; 3; 4; 5; 6; 7; 8; 9]%Z) initial).1
   = replicate 10 true ∧
   userMessageCounts
     (check_all (message_checks "u1" [0; 1; 2; 3; 4; 5; 6; 7; 8; 9]%Z) initial).2
     !! "u1" = Some (mkRateCount 10 60000) ∧
   checkRateLimit 60000 "u1" MessageClass
     (check_all (message_checks "u1" [0; 1; 2; 3; 4; 5; 6; 7; 8; 9]%Z) initial).2
   = (false,
      (check_all (message_checks "u1" [0; 1; 2; 3; 4; 5; 6; 7; 8; 9]%Z) initial).2)) ∧
  ((checkRateLimit 60001 "u1" MessageClass
      (check_all (message_checks "u1" [0]%Z) initial).2).1 = true ∧
   userMessageCounts
     (checkRateLimit 60001 "u1" MessageClass
        (check_all (message_checks "u1" [0]%Z) initial).2).2 !! "u1"
   = Some (mkRateCount 1 120001)).
Proof.
  split.
  - apply (proj1 message_rate_window initial "u1" 0%Z [1; 2; 3; 4; 5; 6; 7; 8; 9]%Z 60000%Z).
    + exact I.
    + reflexivity.
    + repeat constructor; by vm_compute.
    + by vm_compute.
  - apply (proj2 message_rate_window
             (check_all (message_checks "u1" [0]%Z) initial).2 "u1" (mkRateCount 1 60000)
             60001%Z).
    + by vm_compute.
    + by vm_compute.
Defined.

(** C9.  From the empty tables, after any sequence of [checkRateLimit]
    calls (any identities, classes and clock readings) every stored counter
    is at most the limit of its class, 10 for messages and 5 for files; and
    a call that answers [false] returns the state it was given, so a counter
    grows only in a call that answers [true]. *)
Theorem rate_counter_never_exceeds_limit :
  (∀ calls type userId userCount,
     counts_of type (check_all calls initial).2 !! userId = Some userCount →
     (rc_count userCount ≤ limit_of type)%Z) ∧
  limit_of MessageClass = 10%Z ∧ limit_of FileClass = 5%Z ∧
  (∀ t userId type st,
     (checkRateLimit t userId type st).1 = false →
     (checkRateLimit t userId type st).2 = st).
Proof.
  split; [|split; [done | split; [done|]]].
  - intros calls. apply (check_all_keeps_bound calls initial counts_bounded_initial).
  - intros t userId type st. apply checkRateLimit_false.
Qed.

Lemma rate_counter_never_exceeds_limit_witness :
  (rc_count (mkRateCount 5 60000) ≤ limit_of FileClass)%Z ∧
  (checkRateLimit 6 "u1" FileClass
     (check_all ((λ t, (t, "u1", FileClass)) <$> [0; 1; 2; 3; 4; 5]%Z) initial).2).2
  = (check_all ((λ t, (t, "u1", FileClass)) <$> [0; 1; 2; 3; 4; 5]%Z) initial).2.
Proof.
  split.
  - apply (proj1 rate_counter_never_exceeds_limit
             ((λ t, (t, "u1", FileClass)) <$> [0; 1; 2; 3; 4; 5]%Z) FileClass "u1").
    by vm_compute.
  - apply (proj2 (proj2 (proj2 rate_counter_never_exceeds_limit))). by vm_compute.
Defined.

(** ** File transfer admission (C6) *)

Lemma fan_out_no_error st sid room event payload :
  String.eqb event "error" = false →
  existsb is_error (fan_out st sid room event payload) = false.
Proof.
  intros Hev. unfold fan_out.
  induction (r_members room) as [|m ms IH]; simpl; [done|].
  destruct (JsMap.get m (users st)) as [member|]; [|done].
  destruct (String.eqb (u_socketId member) sid); [done|].
  simpl. by rewrite Hev.
Qed.

Lemma rejected_no_error effs : existsb is_error effs = false → rejected effs = false.
Proof. intros H. unfold rejected. by rewrite H. Qed.

(** C6, as stated, fails: a room member's start is also refused when the
    file-class rate limit is used up.  Alice, alone in r1, has started five
    transfers within the minute; her sixth start, of 10 bytes in 1 chunk,
    is refused although neither ceiling is exceeded. *)
Lemma file_start_refused_within_ceilings :
  let st := (run test_bcrypt alice_sends_five_files initial).1 in
  let r := room_file_start (at_time 3005 "") "s1" "r1" (JStr "f") "a.txt" 10 1 st in
  (fst <$> member_room st (socketToUser st !! "s1") "r1") = Some "u1" ∧
  r.2 = [emit_error "s1"
           "File transfer rate limit exceeded. Please wait before sending another file."] ∧
  rejected r.2 = true ∧
  ¬ (MAX_FILE_SIZE < 10 ∨ 1000 < 1)%Z.
Proof.
  cbv zeta. repeat split; try (by vm_compute).
  intros [H|H]; by vm_compute in H.
Qed.

(** C6, amended.  For a room member that resolves in the user registry
    and whose file-class rate check passes, room:file:start refuses the
    transfer (an error to the sender, nothing forwarded) exactly when the
    declared size exceeds 50 MiB or the declared chunk count exceeds 1000,
    and otherwise forwards the start to the other members.  room:file:chunk
    has neither check: for a member it forwards every chunk, whatever its
    index and payload, and emits no error. *)
Theorem file_admission_only_at_start env sid roomId fileId fileName fileSize
    totalChunks chunkIndex chunk st userId room user :
  member_room st (socketToUser st !! sid) roomId = Some (userId, room) →
  (checkRateLimit (now env) userId FileClass st).1 = true →
  JsMap.get userId (users st) = Some user →
  let start := room_file_start env sid roomId fileId fileName fileSize totalChunks st in
  let chunked := room_file_chunk sid roomId fileId chunkIndex chunk st in
  MAX_FILE_SIZE = 52428800%Z ∧
  (rejected start.2 = true ↔ (MAX_FILE_SIZE < fileSize ∨ 1000 < totalChunks)%Z) ∧
  (rejected start.2 = false →
   start.2 = fan_out start.1 sid room "room:file:start"
               (JObj [("roomId", JStr roomId); ("fileId", fileId);
                      ("fileName", JStr (escapeHtml fileName));
                      ("fileSize", JNum fileSize);
                      ("totalChunks", JNum totalChunks);
                      ("fromUserId", JStr userId);
                      ("fromUserName", JStr (u_name user))])) ∧
  chunked = (st, fan_out st sid room "room:file:chunk"
                   (JObj [("roomId", JStr roomId); ("fileId", fileId);
                          ("chunkIndex", chunkIndex); ("chunk", chunk);
                          ("fromUserId", JStr userId)])) ∧
  existsb is_error chunked.2 = false.
Proof.
  intros Hmem Hrate Huser. cbv zeta.
  split; [done|].
  unfold room_file_start, room_file_chunk. rewrite Hmem.
  pose proof (users_checkRateLimit (now env) userId FileClass st) as Hus.
  destruct (checkRateLimit (now env) userId FileClass st) as [ok st1].
  simpl in Hrate, Hus. subst ok. cbn [negb].
  rewrite Hus, Huser.
  split; [|split; [|split]].
  - destruct (Z.ltb_spec MAX_FILE_SIZE fileSize) as [Hs|Hs].
    { split; [by left | done]. }
    destruct (Z.ltb_spec 1000 totalChunks) as [Hc|Hc].
    { split; [by right | done]. }
    cbn [snd]. rewrite rejected_no_error by (by apply fan_out_no_error).
    split; [done | lia].
  - destruct (Z.ltb_spec MAX_FILE_SIZE fileSize) as [Hs|Hs]; [done|].
    destruct (Z.ltb_spec 1000 totalChunks) as [Hc|Hc]; [done|]. done.
  - done.
  - cbn [snd]. by apply fan_out_no_error.
Qed.

Lemma file_admission_only_at_start_witness :
  let st := (run test_bcrypt bob_joins_r1 initial).1 in
  let start :=
    room_file_start (at_time 5000 "") "s1" "r1" (JStr "f") "a.txt" 52428801 4 st in
  let chunked := room_file_chunk "s1" "r1" (JStr "f") (JNum 5000) (JStr "data") st in
  rejected start.2 = true ∧
  chunked.2 = [Emit (ToChannel "s2") "room:file:chunk"
                 (JObj [("roomId", JStr "r1"); ("fileId", JStr "f");
                        ("chunkIndex", JNum 5000); ("chunk", JStr "data");
                        ("fromUserId", JStr "u1")])].
Proof.
  cbv zeta.
  pose proof (file_admission_only_at_start (at_time 5000 "") "s1" "r1" (JStr "f") "a.txt"
                52428801 4 (JNum 5000) (JStr "data")
                (run test_bcrypt bob_joins_r1 initial).1 "u1"
                {| r_id := "r1"; r_name := "lobby"; r_isPrivate := false;
                   r_pinHash := None; r_leadUserId := "u1";
                   r_members := ["u1"; "u2"]; r_maxMembers := 5; r_createdAt := 2000 |}
                {| u_id := "u1"; u_name := "alice"; u_avatarUrl := None;
                   u_socketId := "s1"; u_joinedAt := 1000; u_lastSeen := 1000 |}
                eq_refl eq_refl eq_refl) as (_ & Hstart & _ & Hchunk & _).
  split.
  - apply Hstart. left. reflexivity.
  - rewrite Hchunk. reflexivity.
Defined.

(** ** What a room snapshot shows (C7, C10) *)

(** C7.  Whatever the registry and the room, the object [serializeRoom]
    builds has exactly the properties id, name, isPrivate, leadUserId,
    maxMembers, memberCount, createdAt and members, each entry of members
    has exactly id, name, avatarUrl and lastSeen, and the object does not
    depend on the room's PIN digest: replacing [pinHash] by any other value
    gives the same snapshot. *)
Theorem serializeRoom_hides_pinHash :
  ∀ (us : list (string * User)) (room : Room) (h : option string),
    js_keys (serializeRoom us room)
    = ["id"; "name"; "isPrivate"; "leadUserId"; "maxMembers"; "memberCount";
       "createdAt"; "members"] ∧
    Forall (λ m, js_keys m = ["id"; "name"; "avatarUrl"; "lastSeen"])
      (js_array (default JNull (js_field "members" (serializeRoom us room)))) ∧
    serializeRoom us (with_pinHash h room) = serializeRoom us room.
Proof.
  intros us room h. split; [done|]. split; [|done].
  simpl. apply Forall_forall. intros m Hm.
  apply list_elem_of_omap in Hm as (userId & _ & Hm).
  destruct (JsMap.get userId us) as [user|]; simpl in Hm; [|done].
  by simplify_eq.
Qed.

Lemma omap_length_filter (us : list (string * User)) (ms : list string) :
  length (omap (λ userId, serializeMember <$> JsMap.get userId us) ms)
  = length (filter (λ userId, JsMap.has userId us = true) ms).
Proof.
  induction ms as [|m ms IH]; [done|].
  rewrite filter_cons. cbn [omap list_omap].
  destruct (JsMap.get m us) as [user|] eqn:Hget; cbn [fmap option_fmap option_map].
  - rewrite decide_True by (unfold JsMap.has; by rewrite Hget).
    cbn [length]. by rewrite IH.
  - rewrite decide_False by (unfold JsMap.has; by rewrite Hget). exact IH.
Qed.

(** C10.  [serializeRoom] reports as memberCount the size of the member
    set, and as members the snapshots of exactly those member ids that
    resolve in the user registry, so the array is never longer than
    memberCount says.  [serializeRoom] is a total function: it returns this
    object also when an id is stale.  For the room of u1 and the stale u9
    over a registry that holds only u1, memberCount is 2 and the array has
    one entry. *)
Theorem serializeRoom_counts_stale_members :
  (∀ (us : list (string * User)) (room : Room),
     ∃ arr,
       js_field "memberCount" (serializeRoom us room)
       = Some (JNum (JsSet.size (r_members room))) ∧
       js_field "members" (serializeRoom us room) = Some (JArr arr) ∧
       (∀ v, v ∈ arr ↔
             ∃ userId user, userId ∈ r_members room ∧
                            JsMap.get userId us = Some user ∧
                            v = serializeMember user) ∧
       length arr
       = length (filter (λ userId, JsMap.has userId us = true) (r_members room)) ∧
       (Z.of_nat (length arr) ≤ JsSet.size (r_members room))%Z) ∧
  js_field "memberCount" (serializeRoom only_alice stale_room) = Some (JNum 2) ∧
  js_field "members" (serializeRoom only_alice stale_room)
  = Some (JArr [serializeMember (mkUser "u1" "alice" None "s1" 1000 1000)]) ∧
  (Z.of_nat
     (length (js_array (default JNull
                          (js_field "members" (serializeRoom only_alice stale_room)))))
   < JsSet.size (r_members stale_room))%Z.
Proof.
  split; [|by vm_compute].
  intros us room.
  exists (omap (λ userId, serializeMember <$> JsMap.get userId us) (r_members room)).
  split; [done|]. split; [done|]. split; [|split].
  - intros v. rewrite list_elem_of_omap. split.
    + intros (userId & Hin & Hv).
      destruct (JsMap.get userId us) as [user|] eqn:Hget; simpl in Hv; [|done].
      exists userId, user. by simplify_eq.
    + intros (userId & user & Hin & Hget & ->).
      exists userId. by rewrite Hget.
  - apply omap_length_filter.
  - rewrite omap_length_filter. unfold JsSet.size.
    apply Nat2Z.inj_le, length_filter.
Qed.

(** ** Events from a connection without identity (C8) *)

(** C8, as stated, fails: room:leave and room:typing from a socket that
    never sent user:join return without any emit.  Socket s9 has no
    identity; Alice's room r1 exists. *)
Lemma leave_and_typing_dropped_silently :
  let st := (run test_bcrypt alice_opens_r1 initial).1 in
  socketToUser st !! "s9" = None ∧
  handle test_bcrypt (at_time 3000 "") "s9" (RoomLeave "r1") st = (st, []) ∧
  handle test_bcrypt (at_time 3000 "") "s9" (RoomTyping "r1" (JBool true)) st = (st, []).
Proof. cbv zeta. repeat split; by vm_compute. Qed.

Lemma member_room_unidentified st roomId : member_room st None roomId = None.
Proof. unfold member_room. by destruct (JsMap.get roomId (rooms st)). Qed.

(** C8, amended.  A room event ([room:...]) that arrives on a socket with no
    entry in [socketToUser] changes none of the registries.  The sender gets
    exactly one error event and nothing else is emitted, except for
    room:leave and room:typing, which emit nothing at all. *)
Theorem unidentified_room_event_changes_nothing B env sid ev st :
  socketToUser st !! sid = None →
  is_room_op ev = true →
  (handle B env sid ev st).1 = st ∧
  if drops_silently ev then (handle B env sid ev st).2 = []
  else ∃ msg, (handle B env sid ev st).2 = [emit_error sid msg].
Proof.
  intros Hsid Hev.
  destruct ev; try discriminate Hev; simpl;
    unfold room_create, room_join, room_joinByPin, room_kick, room_list_request,
      room_leave, room_message, room_typing, room_message_edit, room_message_delete,
      room_reaction, room_file_start, room_file_chunk, room_file_end;
    rewrite Hsid; rewrite ?member_room_unidentified; simpl;
    try (split; [done | eauto]; fail).
  destruct (JsMap.get roomId (rooms st)); simpl; split; eauto.
Qed.

Lemma unidentified_room_event_changes_nothing_witness :
  let st := (run test_bcrypt alice_opens_r1 initial).1 in
  (handle test_bcrypt (at_time 3000 "") "s9" (RoomMessage "r1" (JStr "hi")) st).1 = st ∧
  ∃ msg, (handle test_bcrypt (at_time 3000 "") "s9" (RoomMessage "r1" (JStr "hi")) st).2
         = [emit_error "s9" msg].
Proof.
  cbv zeta.
  exact (unidentified_room_event_changes_nothing test_bcrypt (at_time 3000 "") "s9"
           (RoomMessage "r1" (JStr "hi")) (run test_bcrypt alice_opens_r1 initial).1
           eq_refl eq_refl).
Defined.

(** ** The rate bound along a run of the server *)






(** * Further properties of the server *)

(** ** escapeHtml *)

Lemma append_nil_l a : "" +:+ a = a.
Proof. done. Qed.

Lemma append_cons x a b : String x a +:+ b = String x (a +:+ b).
Proof. done. Qed.

Lemma chars_app a b : chars (a +:+ b) = (chars a ++ chars b)%list.
Proof.
  induction a as [|c a IH]; [done|].
  rewrite append_cons. simpl. by f_equal.
Qed.

Lemma append_assoc a b c : (a +:+ b) +:+ c = a +:+ (b +:+ c).
Proof.
  induction a as [|x a IH]; [done|]. rewrite !append_cons. by f_equal.
Qed.

Lemma escapeHtml_cons c rest :
  escapeHtml (String c rest) = escape_char c +:+ escapeHtml rest.
Proof. done. Qed.

Lemma escape_char_safe c x : x ∈ chars (escape_char c) → ¬ html_special x.
Proof.
  unfold escape_char, html_special.
  change quote_char with "034"%char. change apos_char with "039"%char.
  destruct (Ascii.eqb_spec c "&"); [|destruct (Ascii.eqb_spec c "<");
    [|destruct (Ascii.eqb_spec c ">"); [|destruct (Ascii.eqb_spec c "034");
      [|destruct (Ascii.eqb_spec c "039")]]]]; simpl; intros Hx;
    repeat (apply elem_of_cons in Hx as [->|Hx]; [intros [?|[?|[?|?]]]; congruence|]);
    inversion Hx.
Qed.

(** Whatever the text, the escaped text holds none of the characters
    [<], [>], double quote and apostrophe. *)
Theorem escapeHtml_safe text x : x ∈ chars (escapeHtml text) → ¬ html_special x.
Proof.
  induction text as [|c rest IH]; [intros H; inversion H|].
  rewrite escapeHtml_cons, chars_app, elem_of_app.
  intros [H|H]; [by eapply escape_char_safe | by apply IH].
Qed.

Lemma escapeHtml_safe_witness :
  ¬ html_special "&"%char.
Proof.
  apply (escapeHtml_safe "<b>" "&"%char). vm_compute. left.
Defined.

(** Escaping goes character by character: the escape of a concatenation
    is the concatenation of the escapes. *)
Theorem escapeHtml_app a b : escapeHtml (a +:+ b) = escapeHtml a +:+ escapeHtml b.
Proof.
  induction a as [|c a IH]; [done|].
  rewrite append_cons, !escapeHtml_cons, IH. symmetry. apply append_assoc.
Qed.

(** A text without [&], [<], [>], double quote and apostrophe is left as
    it is. *)
Theorem escapeHtml_plain text :
  (∀ x, x ∈ chars text → x ≠ "&"%char ∧ ¬ html_special x) →
  escapeHtml text = text.
Proof.
  induction text as [|c rest IH]; [done|]. intros H.
  rewrite escapeHtml_cons, IH.
  - destruct (H c) as [Hamp Hsp]; [left|]. unfold escape_char, html_special in *.
    destruct (Ascii.eqb_spec c "&"); [done|].
    destruct (Ascii.eqb_spec c "<"); [tauto|].
    destruct (Ascii.eqb_spec c ">"); [tauto|].
    destruct (Ascii.eqb_spec c quote_char); [tauto|].
    destruct (Ascii.eqb_spec c apos_char); [tauto|]. done.
  - intros x Hx. apply H. by right.
Qed.

Lemma escapeHtml_plain_witness : escapeHtml "lobby 7" = "lobby 7".
Proof.
  apply escapeHtml_plain. intros x Hx. vm_compute in Hx.
  repeat (apply elem_of_cons in Hx as [->|Hx];
          [split; [discriminate | intros [?|[?|[?|?]]]; discriminate]|]).
  inversion Hx.
Defined.

Lemma escape_char_cases c :
  (c = "&"%char ∧ escape_char c = "&amp;") ∨
  (c = "<"%char ∧ escape_char c = "&lt;") ∨
  (c = ">"%char ∧ escape_char c = "&gt;") ∨
  (c = quote_char ∧ escape_char c = "&quot;") ∨
  (c = apos_char ∧ escape_char c = "&#039;") ∨
  (c ≠ "&"%char ∧ escape_char c = String c EmptyString).
Proof.
  unfold escape_char.
  destruct (Ascii.eqb_spec c "&"); [tauto|].
  destruct (Ascii.eqb_spec c "<"); [tauto|].
  destruct (Ascii.eqb_spec c ">"); [tauto|].
  destruct (Ascii.eqb_spec c quote_char); [tauto|].
  destruct (Ascii.eqb_spec c apos_char); [tauto|]. tauto.
Qed.

(** Escaping loses nothing: two texts with the same escape are the same
    text. *)
Theorem escapeHtml_inj a b : escapeHtml a = escapeHtml b → a = b.
Proof.
  revert b. induction a as [|c a IH]; intros [|d b].
  - done.
  - rewrite escapeHtml_cons.
    destruct (escape_char_cases d) as [[_ ->]|[[_ ->]|[[_ ->]|[[_ ->]|[[_ ->]|[_ ->]]]]]];
      rewrite append_cons; discriminate.
  - rewrite escapeHtml_cons.
    destruct (escape_char_cases c) as [[_ ->]|[[_ ->]|[[_ ->]|[[_ ->]|[[_ ->]|[_ ->]]]]]];
      rewrite append_cons; discriminate.
  - rewrite !escapeHtml_cons. intros H.
    destruct (escape_char_cases c) as [[-> Hc]|[[-> Hc]|[[-> Hc]|[[-> Hc]|[[-> Hc]|[Hn Hc]]]]]];
    destruct (escape_char_cases d) as [[-> Hd]|[[-> Hd]|[[-> Hd]|[[-> Hd]|[[-> Hd]|[Hm Hd]]]]]];
      rewrite ?Hc, ?Hd in H; rewrite ?append_cons, ?append_nil_l in H;
      try discriminate H;
      try (injection H as H; f_equal; by apply IH);
      try (injection H as H1 H; subst; first [congruence | f_equal; by apply IH]).
Qed.

Lemma escapeHtml_inj_witness : "a<b" = "a<b".
Proof. apply escapeHtml_inj. reflexivity. Defined.

(** ** More facts about the ordered map and set *)

Section JsMapMore.
Context {V : Type}.
Implicit Types (k : string) (v : V) (m : list (string * V)).

Lemma JsMap_has_get k m : JsMap.has k m = true ↔ is_Some (JsMap.get k m).
Proof.
  unfold JsMap.has. destruct (JsMap.get k m); split; intros H; try done.
Qed.

Lemma JsMap_get_set_ne k k' v m :
  k ≠ k' → JsMap.get k' (JsMap.set k v m) = JsMap.get k' m.
Proof.
  intros Hne. unfold JsMap.get. induction m as [|[k0 v0] m IH]; simpl.
  - destruct (String.eqb_spec k' k); [congruence | done].
  - destruct (String.eqb_spec k k0) as [->|Hk]; simpl.
    + destruct (String.eqb_spec k' k0); [congruence | done].
    + destruct (String.eqb_spec k' k0); [done | apply IH].
Qed.


Lemma JsMap_get_delete_eq k m : JsMap.get k (JsMap.delete k m) = None.
Proof.
  unfold JsMap.get. induction m as [|[k0 v0] m IH]; simpl; [done|].
  destruct (String.eqb k k0) eqn:E; [done|]. simpl. by rewrite E.
Qed.

Lemma JsMap_get_delete_ne k k' m :
  k ≠ k' → JsMap.get k' (JsMap.delete k m) = JsMap.get k' m.
Proof.
  intros Hne. unfold JsMap.get. induction m as [|[k0 v0] m IH]; simpl; [done|].
  destruct (String.eqb_spec k k0) as [->|Hk]; simpl.
  - destruct (String.eqb_spec k' k0); [congruence | done].
  - destruct (String.eqb_spec k' k0); [done | apply IH].
Qed.






Lemma JsMap_set_keys k v m :
  (JsMap.set k v m).*1 = if JsMap.has k m then m.*1 else (m.*1 ++ [k])%list.
Proof.
  unfold JsMap.has, JsMap.get. induction m as [|[k0 v0] m IH]; [done|].
  cbn [JsMap.set assoc_get]. destruct (String.eqb k k0) eqn:E; [done|].
  rewrite !fmap_cons, IH. by destruct (assoc_get k m).
Qed.





Lemma JsMap_get_of_elem k v m : NoDup m.*1 → (k, v) ∈ m → JsMap.get k m = Some v.
Proof.
  unfold JsMap.get. induction m as [|[k0 v0] m IH]; simpl; intros Hnd Hin.
  - inversion Hin.
  - apply NoDup_cons in Hnd as [Hk0 Hnd].
    apply elem_of_cons in Hin as [Heq|Hin].
    + simplify_eq. by rewrite String.eqb_refl.
    + destruct (String.eqb_spec k k0) as [->|Hk]; [|by apply IH].
      exfalso. apply Hk0. apply list_elem_of_fmap. by exists (k0, v).
Qed.
End JsMapMore.




Lemma JsSet_delete_not_in x s : x ∉ JsSet.delete x s.
Proof. rewrite JsSet_elem_of_delete. by intros [_ ?]. Qed.

Lemma JsSet_delete_id x s : x ∉ s → JsSet.delete x s = s.
Proof.
  induction s as [|y s IH]; simpl; [done|]. intros Hx.
  apply not_elem_of_cons in Hx as [Hne Hx].
  destruct (String.eqb_spec x y); [done|]. by rewrite IH.
Qed.

(** ** Invariants of the registries along a run *)

Lemma registered_Some st o u :
  registered st o = Some u → o = Some u ∧ u ≠ "" ∧ JsMap.has u (users st) = true.
Proof.
  unfold registered. destruct o as [w|]; [|done].
  destruct (truthy (Some w)) eqn:Ht; [|done].
  destruct (JsMap.has w (users st)) eqn:Hh; [|done].
  simpl. intros [= ->]. split; [done|]. split; [|done].
  intros ->. done.
Qed.







Lemma remove_member_members u room :
  r_members (remove_member u room).1 = JsSet.delete u (r_members room).
Proof.
  unfold remove_member. simpl.
  destruct (JsSet.size (JsSet.delete u (r_members room)) =? 0)%Z; [done|].
  by destruct (String.eqb (r_leadUserId room) u).
Qed.


Section RegistryInvariants.
Variable B : Bcrypt.
Variable env : Env.
Variable sid : string.


End RegistryInvariants.






Section RoomsWf.
Variable B : Bcrypt.
Variable env : Env.
Variable sid : string.


End RoomsWf.








(** ** What a refusal looks like *)







(** room:file:start is the exception: the rate check comes first, so a
    start that passes it and is then refused for its size or chunk count
    has already been counted.  The state after the refusal is the state
    after the rate check, and the sender's file counter is no longer what it
    was. *)
Theorem refused_file_start_is_counted env sid roomId fileId fileName fileSize
    totalChunks st userId room :
  member_room st (socketToUser st !! sid) roomId = Some (userId, room) →
  (checkRateLimit (now env) userId FileClass st).1 = true →
  (MAX_FILE_SIZE < fileSize ∨ 1000 < totalChunks)%Z →
  let r := room_file_start env sid roomId fileId fileName fileSize totalChunks st in
  rejected r.2 = true ∧
  r.1 = (checkRateLimit (now env) userId FileClass st).2 ∧
  userFileCounts r.1 !! userId ≠ userFileCounts st !! userId.
Proof.
  intros Hmem Hrate Hbig. cbv zeta. unfold room_file_start. rewrite Hmem.
  assert (Hne : userFileCounts (checkRateLimit (now env) userId FileClass st).2 !! userId
                ≠ userFileCounts st !! userId).
  { revert Hrate. unfold checkRateLimit, check_counts. cbn [counts_of limit_of].
    destruct (userFileCounts st !! userId) as [rc|] eqn:Hu; simpl.
    - destruct (Z.ltb_spec (rc_resetTime rc) (now env)); simpl.
      + intros _. rewrite lookup_insert_eq. intros [= <-]. simpl in *. lia.
      + destruct (FILE_RATE_LIMIT <=? rc_count rc)%Z; simpl; [done|].
        intros _. rewrite lookup_insert_eq. destruct rc as [n r]. simpl.
        intros [= Hn]. lia.
    - intros _. by rewrite lookup_insert_eq. }
  destruct (checkRateLimit (now env) userId FileClass st) as [ok st1].
  simpl in Hrate, Hne. subst ok. cbn [negb].
  destruct (Z.ltb_spec MAX_FILE_SIZE fileSize); [done|].
  destruct (Z.ltb_spec 1000 totalChunks); [done|]. lia.
Qed.

Lemma refused_file_start_is_counted_witness :
  let st := (run test_bcrypt bob_joins_r1 initial).1 in
  let r := room_file_start (at_time 5000 "") "s1" "r1" (JStr "f") "big.iso"
             52428801 4 st in
  rejected r.2 = true ∧
  r.1 = (checkRateLimit 5000 "u1" FileClass st).2 ∧
  userFileCounts r.1 !! "u1" ≠ userFileCounts st !! "u1".
Proof.
  cbv zeta.
  apply (refused_file_start_is_counted (at_time 5000 "") "s1" "r1" (JStr "f") "big.iso"
           52428801 4 (run test_bcrypt bob_joins_r1 initial).1 "u1"
           {| r_id := "r1"; r_name := "lobby"; r_isPrivate := false;
              r_pinHash := None; r_leadUserId := "u1";
              r_members := ["u1"; "u2"]; r_maxMembers := 5; r_createdAt := 2000 |}).
  - reflexivity.
  - reflexivity.
  - left. reflexivity.
Defined.

(** ** Leaving, being kicked, disconnecting *)

(** Leaving twice is leaving once: whatever the first room:leave did, the
    same event sent again on the same socket changes nothing and emits
    nothing. *)
Theorem leave_twice_is_noop sid roomId st :
  room_leave sid roomId (room_leave sid roomId st).1
  = ((room_leave sid roomId st).1, []).
Proof.
  unfold room_leave at 2 3.
  destruct (member_room st (socketToUser st !! sid) roomId) as [[u room]|] eqn:Hm.
  - apply member_room_Some in Hm as (Hsid & Hget & Hin).
    pose proof (remove_member_members u room) as Hms.
    destruct (remove_member u room) as [room' emptied]. simpl in Hms.
    unfold room_leave. destruct emptied; cbn [fst]; simpl socketToUser; rewrite Hsid.
    + unfold member_room. simpl. by rewrite JsMap_get_delete_eq.
    + unfold member_room. simpl. rewrite JsMap_get_set_eq, Hms.
      pose proof (JsSet_delete_not_in u (r_members room)) as Hn.
      by apply JsSet_has_false in Hn as ->.
  - cbn [fst]. unfold room_leave. by rewrite Hm.
Qed.

(** What room:leave leaves behind for a member [u] of the room: nothing
    when [u] was the last member; otherwise the room without [u], led by
    the earliest-joined remaining member if [u] was the lead and by the
    same lead if not. *)
Theorem leave_hands_lead_to_earliest_member sid roomId st u room :
  member_room st (socketToUser st !! sid) roomId = Some (u, room) →
  JsMap.get roomId (rooms (room_leave sid roomId st).1)
  = match JsSet.delete u (r_members room) with
    | [] => None
    | next :: rest =>
        Some (with_lead (if String.eqb (r_leadUserId room) u
                         then next else r_leadUserId room)
                (with_members (next :: rest) room))
    end.
Proof.
  intros Hm. unfold room_leave. rewrite Hm. unfold remove_member. simpl.
  destruct (JsSet.delete u (r_members room)) as [|next rest] eqn:Hd; simpl.
  - apply JsMap_get_delete_eq.
  - destruct (String.eqb (r_leadUserId room) u); simpl; apply JsMap_get_set_eq.
Qed.

Lemma leave_hands_lead_to_earliest_member_witness :
  JsMap.get "r1"
    (rooms (room_leave "s1" "r1" (run test_bcrypt bob_joins_r1 initial).1).1)
  = Some {| r_id := "r1"; r_name := "lobby"; r_isPrivate := false;
            r_pinHash := None; r_leadUserId := "u2"; r_members := ["u2"];
            r_maxMembers := 5; r_createdAt := 2000 |}.
Proof.
  exact (leave_hands_lead_to_earliest_member "s1" "r1"
           (run test_bcrypt bob_joins_r1 initial).1 "u1"
           {| r_id := "r1"; r_name := "lobby"; r_isPrivate := false;
              r_pinHash := None; r_leadUserId := "u1";
              r_members := ["u1"; "u2"]; r_maxMembers := 5; r_createdAt := 2000 |}
           eq_refl).
Defined.

Lemma disconnect_rooms_clears sid us u rs :
  Forall (λ kv : string * Room, u ∉ r_members kv.2) (disconnect_rooms sid us u rs).1.
Proof.
  induction rs as [|[k room] rs IH]; simpl; [constructor|].
  destruct (disconnect_rooms sid us u rs) as [rest effs]. simpl in IH.
  destruct (JsSet.has u (r_members room)) eqn:Hh; simpl.
  - pose proof (remove_member_members u room) as Hm.
    destruct (remove_member u room) as [room' emptied]. simpl in Hm.
    destruct emptied; simpl; [done|]. constructor; [|done]. simpl. rewrite Hm.
    apply JsSet_delete_not_in.
  - constructor; [|done]. simpl. by apply JsSet_has_false.
Qed.

Lemma disconnect_rooms_frame sid us u rs k room :
  (k, room) ∈ rs → u ∉ r_members room → (k, room) ∈ (disconnect_rooms sid us u rs).1.
Proof.
  intros Hin Hu. induction rs as [|[k0 room0] rs IH]; simpl; [inversion Hin|].
  destruct (disconnect_rooms sid us u rs) as [rest effs]. simpl in IH.
  apply elem_of_cons in Hin as [Heq|Hin].
  - simplify_eq. apply JsSet_has_false in Hu. rewrite Hu. simpl. left.
  - specialize (IH Hin).
    destruct (JsSet.has u (r_members room0)); simpl; [|by right].
    destruct (remove_member u room0) as [room' emptied].
    destruct emptied; simpl; [done | by right].
Qed.

(** After the disconnect of a socket that carries identity [u], the socket
    has no identity, [u] is gone from the user registry and from the member
    list of every room, and a second disconnect of the same socket changes
    nothing and emits nothing. *)
Theorem disconnect_clears_identity sid st u :
  socketToUser st !! sid = Some u → u ≠ "" →
  let st' := (disconnect sid st).1 in
  socketToUser st' !! sid = None ∧
  JsMap.get u (users st') = None ∧
  Forall (λ kv : string * Room, u ∉ r_members kv.2) (rooms st') ∧
  disconnect sid st' = (st', []).
Proof.
  intros Hsid Hu. cbv zeta.
  assert (Htr : truthy (Some u) = true).
  { simpl. destruct (String.eqb_spec u ""); [done | done]. }
  destruct (disconnect sid st) as [st' effs'] eqn:Hd.
  unfold disconnect in Hd. rewrite Hsid, Htr in Hd.
  pose proof (disconnect_rooms_clears sid (users st) u (rooms st)) as Hc.
  destruct (disconnect_rooms sid (users st) u (rooms st)) as [rooms' effs].
  injection Hd as <- <-. cbn [fst]. simpl in Hc.
  assert (Hgone : delete sid (socketToUser st) !! sid = None) by apply lookup_delete_eq.
  split; [done|]. split; [apply JsMap_get_delete_eq|]. split; [done|].
  unfold disconnect. cbn [socketToUser]. by rewrite Hgone.
Qed.

Lemma disconnect_clears_identity_witness :
  let st' := (disconnect "s2" (run test_bcrypt bob_joins_r1 initial).1).1 in
  socketToUser st' !! "s2" = None ∧
  JsMap.get "u2" (users st') = None ∧
  Forall (λ kv : string * Room, "u2" ∉ r_members kv.2) (rooms st') ∧
  disconnect "s2" st' = (st', []).
Proof.
  apply (disconnect_clears_identity "s2" (run test_bcrypt bob_joins_r1 initial).1 "u2").
  - reflexivity.
  - discriminate.
Defined.

(** A disconnect touches nothing but the leaving identity: every room that
    did not list [u] is still in the directory as it was, every other user
    is still registered as it was, and every other socket keeps its
    identity. *)
Theorem disconnect_keeps_the_rest sid st u :
  socketToUser st !! sid = Some u →
  let st' := (disconnect sid st).1 in
  (∀ k room, (k, room) ∈ rooms st → u ∉ r_members room → (k, room) ∈ rooms st') ∧
  (∀ v, v ≠ u → JsMap.get v (users st') = JsMap.get v (users st)) ∧
  (∀ sid', sid' ≠ sid → socketToUser st' !! sid' = socketToUser st !! sid').
Proof.
  intros Hsid. cbv zeta. unfold disconnect. rewrite Hsid.
  destruct (truthy (Some u)); [|done].
  pose proof (disconnect_rooms_frame sid (users st) u (rooms st)) as Hf.
  destruct (disconnect_rooms sid (users st) u (rooms st)) as [rooms' effs].
  cbn [fst]. simpl in *. split; [exact Hf|]. split.
  - intros v Hv. by apply JsMap_get_delete_ne.
  - intros sid' Hs. by apply lookup_delete_ne.
Qed.

Lemma disconnect_keeps_the_rest_witness :
  let st' := (disconnect "s3" (run test_bcrypt private_room_full initial).1).1 in
  (∀ k room, (k, room) ∈ rooms (run test_bcrypt private_room_full initial).1 →
             "u3" ∉ r_members room → (k, room) ∈ rooms st') ∧
  (∀ v, v ≠ "u3" →
        JsMap.get v (users st')
        = JsMap.get v (users (run test_bcrypt private_room_full initial).1)) ∧
  (∀ sid', sid' ≠ "s3" →
           socketToUser st' !! sid'
           = socketToUser (run test_bcrypt private_room_full initial).1 !! sid').
Proof.
  apply (disconnect_keeps_the_rest "s3" (run test_bcrypt private_room_full initial).1 "u3").
  reflexivity.
Defined.

(** Only the lead can kick: when the room does not exist, or the sending
    socket's identity is not the room's lead (or the socket has none), the
    handler answers "Unauthorized" and changes nothing, whoever the target
    is. *)
Theorem kick_needs_lead sid roomId targetUserId st :
  (∀ room, JsMap.get roomId (rooms st) = Some room →
           socketToUser st !! sid ≠ Some (r_leadUserId room)) →
  room_kick sid roomId targetUserId st = (st, [emit_error sid "Unauthorized"]).
Proof.
  intros Hlead. unfold room_kick.
  destruct (JsMap.get roomId (rooms st)) as [room|]; [|done].
  specialize (Hlead room eq_refl). unfold is_lead.
  destruct (socketToUser st !! sid) as [u|]; [|done].
  destruct (String.eqb_spec (r_leadUserId room) u) as [Heq|Hne]; [|done].
  exfalso. apply Hlead. by rewrite Heq.
Qed.

Lemma kick_needs_lead_witness :
  room_kick "s2" "r1" "u1" (run test_bcrypt bob_joins_r1 initial).1
  = ((run test_bcrypt bob_joins_r1 initial).1, [emit_error "s2" "Unauthorized"]).
Proof.
  apply kick_needs_lead. intros room Hroom. vm_compute in Hroom.
  injection Hroom as <-. vm_compute. discriminate.
Defined.

(** ** Joining *)



(** What the second of two identities finds when the first has just
    created a room and the second asks to join it. *)
Lemma join_after_create B env1 env2 sid1 sid2 name isPrivate pin pin' maxMembers st u1 u2 :
  registered st (socketToUser st !! sid1) = Some u1 →
  registered st (socketToUser st !! sid2) = Some u2 →
  u1 ≠ u2 →
  (Z.of_nat (length (filter (λ room, r_leadUserId room = u1) (JsMap.values (rooms st))))
   < MAX_ROOMS_PER_USER)%Z →
  (2 ≤ create_maxMembers maxMembers)%Z →
  ∃ room,
    JsMap.get (uuid env1)
      (rooms (room_create B env1 sid1 name isPrivate pin maxMembers st).1) = Some room ∧
    r_isPrivate room = isPrivate ∧
    r_pinHash room = match pin with
                     | Some p => if isPrivate && truthy pin
                                 then Some (bcrypt_hash B (salt env1) p) else None
                     | None => None
                     end ∧
    (pin_rejected B room pin' = false →
     (r_members <$>
        JsMap.get (uuid env1)
          (rooms (room_join B env2 sid2 (uuid env1) pin'
                    (room_create B env1 sid1 name isPrivate pin maxMembers st).1).1))
     = Some [u1; u2]) ∧
    (pin_rejected B room pin' = true →
     room_join B env2 sid2 (uuid env1) pin'
       (room_create B env1 sid1 name isPrivate pin maxMembers st).1
     = ((room_create B env1 sid1 name isPrivate pin maxMembers st).1,
        [emit_error sid2 "Invalid PIN"])).
Proof.
  intros Hr1 Hr2 Hne Hled Hmax. unfold room_create. rewrite Hr1. cbv zeta.
  rewrite (proj2 (Z.leb_gt _ _) Hled). cbn [fst].
  eexists. split; [apply JsMap_get_set_eq|]. split; [done|]. split; [done|].
  assert (Hhas : JsSet.has u2 [u1] = false).
  { apply JsSet_has_false. intros H%list_elem_of_singleton. congruence. }
  split; intros Hpin; unfold room_join; simpl socketToUser;
    change (registered (set_rooms _ st) (socketToUser st !! sid2))
      with (registered st (socketToUser st !! sid2));
    rewrite Hr2; simpl rooms; rewrite JsMap_get_set_eq; cbn [r_maxMembers r_members];
    rewrite (proj2 (Z.leb_gt (create_maxMembers maxMembers) (JsSet.size [u1])))
      by (unfold JsSet.size; simpl; lia);
    rewrite Hhas, Hpin; [|done].
  cbn [fst]. rewrite rooms_touch. simpl rooms. rewrite JsMap_get_set_eq.
  simpl. unfold JsSet.add. by rewrite Hhas.
Qed.

(** A private room opens with the PIN it was created with and with no
    other: if bcrypt accepts the digest of a pin for that pin, then after
    identity [u1] creates a private room with PIN [pin] (capacity at least
    2), a registered [u2] who sends room:join with the same PIN becomes the
    second member, and one who sends a PIN bcrypt does not accept for the
    stored digest gets "Invalid PIN" and changes nothing. *)
Theorem private_room_opens_with_its_pin B env1 env2 sid1 sid2 name pin pin' maxMembers
    st u1 u2 :
  (∀ s p, bcrypt_compare B p (bcrypt_hash B s p) = true) →
  bcrypt_hash B (salt env1) pin ≠ "" →
  bcrypt_compare B pin' (bcrypt_hash B (salt env1) pin) = false →
  pin ≠ "" →
  registered st (socketToUser st !! sid1) = Some u1 →
  registered st (socketToUser st !! sid2) = Some u2 →
  u1 ≠ u2 →
  (Z.of_nat (length (filter (λ room, r_leadUserId room = u1) (JsMap.values (rooms st))))
   < MAX_ROOMS_PER_USER)%Z →
  (2 ≤ create_maxMembers maxMembers)%Z →
  let st1 := (room_create B env1 sid1 name true (Some pin) maxMembers st).1 in
  (r_members <$>
     JsMap.get (uuid env1) (rooms (room_join B env2 sid2 (uuid env1) (Some pin) st1).1))
  = Some [u1; u2] ∧
  room_join B env2 sid2 (uuid env1) (Some pin') st1
  = (st1, [emit_error sid2 "Invalid PIN"]).
Proof.
  intros Hb Hh Hbad Hpin Hr1 Hr2 Hne Hled Hmax. cbv zeta.
  assert (Ht : truthy (Some pin) = true).
  { simpl. by destruct (String.eqb_spec pin ""). }
  assert (Hth : truthy (Some (bcrypt_hash B (salt env1) pin)) = true).
  { simpl. by destruct (String.eqb_spec (bcrypt_hash B (salt env1) pin) ""). }
  split.
  - destruct (join_after_create B env1 env2 sid1 sid2 name true (Some pin) (Some pin)
                maxMembers st u1 u2 Hr1 Hr2 Hne Hled Hmax)
      as (room & _ & Hpriv & Hhash & Hok & _).
    apply Hok. unfold pin_rejected. rewrite Hhash, Hpriv. cbn [andb].
    rewrite Ht, Hth, Hb. done.
  - destruct (join_after_create B env1 env2 sid1 sid2 name true (Some pin) (Some pin')
                maxMembers st u1 u2 Hr1 Hr2 Hne Hled Hmax)
      as (room & _ & Hpriv & Hhash & _ & Hno).
    apply Hno. unfold pin_rejected. rewrite Hhash, Hpriv. cbn [andb].
    rewrite Ht, Hth, Hbad. cbn. by rewrite orb_true_r.
Qed.

Lemma private_room_opens_with_its_pin_witness :
  let st := (run test_bcrypt bob_outside_r1 initial).1 in
  let st1 := (room_create test_bcrypt (at_time 4000 "r2") "s1" "vault" true
                (Some "4821") (Some 2%Z) st).1 in
  (r_members <$>
     JsMap.get "r2"
       (rooms (room_join test_bcrypt (at_time 5000 "") "s2" "r2" (Some "4821") st1).1))
  = Some ["u1"; "u2"] ∧
  room_join test_bcrypt (at_time 5000 "") "s2" "r2" (Some "0000") st1
  = (st1, [emit_error "s2" "Invalid PIN"]).
Proof.
  apply (private_room_opens_with_its_pin test_bcrypt (at_time 4000 "r2")
           (at_time 5000 "") "s1" "s2" "vault" "4821" "0000" (Some 2%Z)
           (run test_bcrypt bob_outside_r1 initial).1 "u1" "u2").
  - apply test_bcrypt_accepts.
  - discriminate.
  - reflexivity.
  - discriminate.
  - reflexivity.
  - reflexivity.
  - discriminate.
  - by vm_compute.
  - by vm_compute.
Defined.



(** The scan of room:joinByPin picks the first room, in creation order,
    that is private, has a digest and whose digest bcrypt accepts for the
    PIN: every room before it fails that test; and it finds nothing exactly
    when every room fails it. *)
Theorem find_by_pin_first_match B pin rs :
  match find_by_pin B pin rs with
  | Some (k, room) =>
      ∃ pre post, rs = (pre ++ (k, room) :: post)%list ∧
                  pin_matches B pin room = true ∧
                  Forall (λ kv : string * Room, pin_matches B pin kv.2 = false) pre
  | None => Forall (λ kv : string * Room, pin_matches B pin kv.2 = false) rs
  end.
Proof.
  induction rs as [|[k0 room0] rs IH]; cbn [find_by_pin]; [constructor|].
  assert (Hcase : pin_matches B pin room0 = true ∧
                  match r_pinHash room0 with
                  | Some h =>
                      if r_isPrivate room0 && truthy (Some h) && bcrypt_compare B pin h
                      then Some (k0, room0) else find_by_pin B pin rs
                  | None => find_by_pin B pin rs
                  end = Some (k0, room0)
                  ∨ pin_matches B pin room0 = false ∧
                    match r_pinHash room0 with
                    | Some h =>
                        if r_isPrivate room0 && truthy (Some h) && bcrypt_compare B pin h
                        then Some (k0, room0) else find_by_pin B pin rs
                    | None => find_by_pin B pin rs
                    end = find_by_pin B pin rs).
  { unfold pin_matches. destruct (r_pinHash room0) as [h|]; [|by right].
    destruct (r_isPrivate room0 && truthy (Some h) && bcrypt_compare B pin h);
      [by left | by right]. }
  destruct Hcase as [[Hm ->]|[Hm ->]].
  - exists [], rs. by split; [|split; [|constructor]].
  - destruct (find_by_pin B pin rs) as [[k room]|].
    + destruct IH as (pre & post & -> & Hroom & Hpre).
      exists ((k0, room0) :: pre), post. split; [done|]. split; [done|].
      by constructor.
    + by constructor.
Qed.

(** ** Relay *)


(** A member whose message counter has reached the limit inside its
    window is refused: room:message answers with the rate-limit error,
    forwards to no one and changes nothing. *)
Theorem exhausted_sender_is_refused env sid roomId message st u room userCount :
  member_room st (socketToUser st !! sid) roomId = Some (u, room) →
  userMessageCounts st !! u = Some userCount →
  (now env ≤ rc_resetTime userCount)%Z →
  (MESSAGE_RATE_LIMIT ≤ rc_count userCount)%Z →
  room_message env sid roomId message st
  = (st, [emit_error sid "Message rate limit exceeded. Please slow down."]).
Proof.
  intros Hm Hu Ht Hn. unfold room_message, checkRateLimit. rewrite Hm.
  cbn [counts_of limit_of].
  rewrite (check_counts_denied _ _ _ _ _ Hu Ht Hn). cbn [negb].
  by rewrite (set_counts_id MessageClass).
Qed.

Lemma exhausted_sender_is_refused_witness :
  room_message (at_time 5010 "") "s1" "r1" (JStr "hi")
    (run test_bcrypt alice_sends_ten_messages initial).1
  = ((run test_bcrypt alice_sends_ten_messages initial).1,
     [emit_error "s1" "Message rate limit exceeded. Please slow down."]).
Proof.
  apply (exhausted_sender_is_refused (at_time 5010 "") "s1" "r1" (JStr "hi")
           (run test_bcrypt alice_sends_ten_messages initial).1 "u1"
           {| r_id := "r1"; r_name := "lobby"; r_isPrivate := false;
              r_pinHash := None; r_leadUserId := "u1";
              r_members := ["u1"; "u2"]; r_maxMembers := 5; r_createdAt := 2000 |}
           (mkRateCount 10 65000)).
  - by vm_compute.
  - by vm_compute.
  - by vm_compute.
  - by vm_compute.
Defined.

(** The relay-only events (typing, edit, delete, reaction, file chunk and
    end, the three signaling messages, the list request) never change any
    registry: not the rooms, not the users, not a rate counter. *)
Theorem relay_only_events_change_nothing B env sid ev st :
  is_relay_only ev = true → (handle B env sid ev st).1 = st.
Proof.
  intros Hev. destruct ev; try discriminate Hev; simpl.
  - unfold room_list_request. by case_branch.
  - unfold room_typing. case_branch; [by destruct p | done].
  - unfold room_message_edit. case_branch; [by destruct p | done].
  - unfold room_message_delete. case_branch; [by destruct p | done].
  - unfold room_reaction. case_branch; [by destruct p | done].
  - unfold room_file_chunk. case_branch; [by destruct p | done].
  - unfold room_file_end. case_branch; [by destruct p | done].
  - unfold webrtc_offer. case_branch; [by case_branch | done].
  - unfold webrtc_answer. by case_branch.
  - unfold webrtc_ice_candidate. by case_branch.
Qed.

Lemma relay_only_events_change_nothing_witness :
  (handle test_bcrypt (at_time 5010 "") "s1"
     (RoomFileChunk "r1" (JStr "f") (JNum 0) (JStr "data"))
     (run test_bcrypt alice_sends_ten_messages initial).1).1
  = (run test_bcrypt alice_sends_ten_messages initial).1.
Proof. apply relay_only_events_change_nothing. reflexivity. Defined.

(** ** Registering and updating a profile *)

(** Below capacity, user:join registers the socket: afterwards the socket
    resolves to an identity that is in the user registry under its own id,
    bound to this socket and carrying the escaped name; the identity is the
    supplied one when that is a known id and the fresh uuid otherwise; no
    room changes. *)
Theorem user_join_registers env sid name userId avatarUrl st :
  (JsMap.size (users st) < MAX_TOTAL_USERS)%Z →
  uuid env ≠ "" →
  let st' := (user_join env sid name userId avatarUrl st).1 in
  ∃ id user,
    socketToUser st' !! sid = Some id ∧
    registered st' (socketToUser st' !! sid) = Some id ∧
    JsMap.get id (users st') = Some user ∧
    u_id user = id ∧ u_socketId user = sid ∧ u_name user = escapeHtml name ∧
    id = default (uuid env) (registered st userId) ∧
    rooms st' = rooms st.
Proof.
  intros Hcap Huuid. cbv zeta. unfold user_join.
  rewrite (proj2 (Z.leb_gt _ _) Hcap). cbv zeta. cbn [fst].
  set (id := match registered st userId with Some u => u | None => uuid env end).
  assert (Hid : id ≠ "").
  { subst id. destruct (registered st userId) as [w|] eqn:Hr; [|done].
    by apply registered_Some in Hr as (_ & ? & _). }
  eexists id, _. simpl socketToUser. rewrite lookup_insert_eq.
  split; [done|]. split.
  { unfold registered. simpl users. unfold JsMap.has. rewrite JsMap_get_set_eq.
    simpl. by destruct (String.eqb_spec id ""). }
  split; [apply JsMap_get_set_eq|]. simpl. repeat split; done.
Qed.

Lemma user_join_registers_witness :
  let st' := (user_join (at_time 6000 "u4") "s4" "<dave>" None None
                (run test_bcrypt private_room_full initial).1).1 in
  ∃ id user,
    socketToUser st' !! "s4" = Some id ∧
    registered st' (socketToUser st' !! "s4") = Some id ∧
    JsMap.get id (users st') = Some user ∧
    u_id user = id ∧ u_socketId user = "s4" ∧ u_name user = escapeHtml "<dave>" ∧
    id = default "u4" (registered (run test_bcrypt private_room_full initial).1 None) ∧
    rooms st' = rooms (run test_bcrypt private_room_full initial).1.
Proof.
  apply (user_join_registers (at_time 6000 "u4") "s4" "<dave>" None None
           (run test_bcrypt private_room_full initial).1).
  - by vm_compute.
  - discriminate.
Defined.

(** user:update changes the caller's profile and nothing else: rooms,
    socket identities and rate tables stay as they are, the registry keeps
    the same ids in the same order, every other user is untouched, and the
    caller keeps its id, socket and timestamps.  From a socket without a
    registered identity it does nothing and emits nothing. *)
Theorem user_update_changes_profile_only trim sid name avatarUrl st :
  let r := user_update trim sid name avatarUrl st in
  rooms r.1 = rooms st ∧
  socketToUser r.1 = socketToUser st ∧
  userMessageCounts r.1 = userMessageCounts st ∧
  userFileCounts r.1 = userFileCounts st ∧
  (users r.1).*1 = (users st).*1 ∧
  (∀ v, socketToUser st !! sid ≠ Some v →
        JsMap.get v (users r.1) = JsMap.get v (users st)) ∧
  (∀ v a, JsMap.get v (users st) = Some a →
          ∃ b, JsMap.get v (users r.1) = Some b ∧
               u_id b = u_id a ∧ u_socketId b = u_socketId a ∧
               u_joinedAt b = u_joinedAt a ∧ u_lastSeen b = u_lastSeen a) ∧
  (registered st (socketToUser st !! sid) = None → r = (st, [])).
Proof.
  cbv zeta. unfold user_update.
  destruct (registered st (socketToUser st !! sid)) as [u|] eqn:Hreg.
  2:{ repeat split; try done. intros v a Ha. by exists a. }
  apply registered_Some in Hreg as (Hsid & _ & Hhas).
  destruct (JsMap.get u (users st)) as [user|] eqn:Hget.
  2:{ repeat split; try done. intros v a Ha. by exists a. }
  cbn [fst]. simpl rooms. simpl socketToUser. simpl userMessageCounts.
  simpl userFileCounts. simpl users.
  split; [done|]. split; [done|]. split; [done|]. split; [done|].
  split; [by rewrite JsMap_set_keys, Hhas|]. split.
  { intros v Hv. apply JsMap_get_set_ne. congruence. }
  split; [|done].
  intros v a Ha. destruct (decide (u = v)) as [->|Hne].
  - rewrite JsMap_get_set_eq. eexists. split; [done|].
    assert (a = user) as -> by congruence.
    destruct name as [n|], avatarUrl as [av|]; simpl;
      try destruct (negb (trim n =? "")); done.
  - rewrite JsMap_get_set_ne by done. by exists a.
Qed.

(** ** getLocalIp *)

Lemma find_app {A} (f : A → bool) (l1 l2 : list A) :
  List.find f (l1 ++ l2)
  = match List.find f l1 with Some x => Some x | None => List.find f l2 end.
Proof.
  induction l1 as [|x l1 IH]; simpl; [done|]. by destruct (f x).
Qed.

(** [getLocalIp] returns the address of the first entry, in the order the
    operating system lists interfaces and their entries, that is IPv4 and
    not internal, and "localhost" when there is none. *)
Theorem getLocalIp_first_external interfaces :
  getLocalIp interfaces
  = match List.find external_ipv4 (concat (interfaces.*2)) with
    | Some iface => if_address iface
    | None => "localhost"
    end.
Proof.
  induction interfaces as [|[name ifaces] rest IH]; [done|].
  cbn [getLocalIp]. rewrite fmap_cons. cbn [concat snd]. rewrite find_app.
  by destruct (List.find external_ipv4 ifaces).
Qed.

Example getLocalIp_lan : getLocalIp two_interfaces = "192.168.1.20".
Proof. reflexivity. Qed.

Example getLocalIp_offline : getLocalIp [("lo", [mkIface "IPv4" true "127.0.0.1"])] = "localhost".
Proof. reflexivity. Qed.
